(** * The exam page: loading, countdown, answers, scoring, persistence, cursor

    A shallow embedding of [src/pages/exam.tsx] (the [ExamPage] component).
    The component's closures ([loadExam], the timer effect, [handleAnswer],
    [handleSubmit], the Previous/Next handlers) and the computed parts of
    its view (the clock, the palette, the [disabled] attributes) become
    functions over the component state they read and write; browser
    services ([localStorage], [console], [navigate], [JSON], the remote
    services) become an explicit world with an event trace and an explicit
    record of collaborators.

    Numbers.  Option indices, counters, seconds and milliseconds are
    integers ([Z], [nat]).  Marks (weightage, negative marking, score,
    thresholds, percentage) are JavaScript numbers, that is IEEE 754
    binary64 values: they are Rocq's primitive floats, whose operations
    round, overflow and produce infinities and NaN as the code's do.  What
    is proved about them for all inputs rests on [FloatAxioms], which ties
    each primitive to its specification in [SpecFloat].

    Objects used as maps.  [localStorage] is a [gmap string string].  The
    answer map is a plain JavaScript object: its own entries are a
    [gmap string Z], and a read [answers[k]] that finds no own entry falls
    through to what every object inherits, see [get_answer]. *)

From Stdlib Require Import ZArith List Lia Floats.
From Stdlib Require Uint63.
From stdpp Require Import gmap strings list fin_maps pretty.
Import ListNotations.

Local Open Scope string_scope.
#[local] Set Warnings "-inexact-float".

(** ** JavaScript numbers *)

Abbreviation number := float.

(** A counter or an array length used as a number.  An array has fewer
    than [2^32] elements, and up to [2^53] the conversion is exact. *)
Definition number_of_nat (n : nat) : number :=
  of_uint63 (Uint63.of_Z (Z.of_nat n)).

(** [x >= k]; every comparison with NaN is false. *)
Definition number_ge (x k : number) : bool := (k <=? x)%float.

(** [k] is below or equal to [x] in the order of IEEE 754, as [SpecFloat]
    specifies it: the two zeros are equal, NaN is comparable with nothing. *)
Definition ieee_le (k x : number) : Prop :=
  SFcompare (Prim2SF k) (Prim2SF x) = Some Lt \/
  SFcompare (Prim2SF k) (Prim2SF x) = Some Eq.

(** ** Data model *)

(** Modelled from the spec: the type [Question] of [src/lib/types], which is
    not among the sources; the fields are those the page reads. *)
Record Question : Type := mkQuestion {
  question_id : string;
  text : string;
  options : list string;
  correctAnswer : Z;
  weightage : number
}.

(** Modelled from the spec: the type [Section] of [src/lib/types]. *)
Record ExamSection : Type := mkSection {
  name : string;
  instructions : option string;
  negativeMarking : number;
  questions : list Question
}.

(** Modelled from the spec: the marking scheme of an [Exam]. *)
Record MarkingScheme : Type := mkMarkingScheme {
  defaultWeightage : number;
  passingPercentage : number
}.

(** Modelled from the spec: the type [Exam] of [src/lib/types];
    [lastAttemptedAt] is the field [handleSubmit] writes in the stored list. *)
Record Exam : Type := mkExam {
  exam_id : string;
  title : string;
  duration : Z;
  sections : list ExamSection;
  markingScheme : MarkingScheme;
  lastAttemptedAt : option string
}.

(** The own entries of [answers : Record<string, number>]. *)
Abbreviation AnswerMap := (gmap string Z).

(** What the read [answers[k]] yields: the number of an own entry, a value
    inherited from [Object.prototype] (a function, or the prototype itself
    for [__proto__]), or [undefined]. *)
Inductive AnswerRead : Type :=
  | ReadNumber (optionIndex : Z)
  | ReadInherited
  | ReadUndefined.

(** The property names every plain object inherits. *)
Definition inherited_names : list string :=
  ["constructor"; "hasOwnProperty"; "isPrototypeOf"; "propertyIsEnumerable";
   "toLocaleString"; "toString"; "valueOf"; "__proto__";
   "__defineGetter__"; "__defineSetter__"; "__lookupGetter__";
   "__lookupSetter__"].

Definition inherited (k : string) : bool :=
  existsb (String.eqb k) inherited_names.

(** [answers[k]]: an own entry shadows an inherited property. *)
Definition get_answer (answers : AnswerMap) (k : string) : AnswerRead :=
  match answers !! k with
  | Some optionIndex => ReadNumber optionIndex
  | None => if inherited k then ReadInherited else ReadUndefined
  end.

(** ** Scorer (the first half of [handleSubmit]) *)

(** The three counters of [handleSubmit]. *)
Record Tally : Type := mkTally {
  acc_correctAnswers : nat;
  acc_wrongAnswers : nat;
  acc_totalScore : number
}.

Definition tally0 : Tally := mkTally 0 0 0%float.

(** The body of the inner [forEach].  Only [undefined] skips the question;
    an inherited value is no number, so it is not [=== correctAnswer]. *)
Definition score_question (answers : AnswerMap) (section : ExamSection)
    (acc : Tally) (question : Question) : Tally :=
  match get_answer answers (question_id question) with
  | ReadUndefined => acc
  | ReadNumber userAnswer =>
      if Z.eqb userAnswer (correctAnswer question) then
        mkTally (S (acc_correctAnswers acc)) (acc_wrongAnswers acc)
                (acc_totalScore acc + weightage question)%float
      else
        mkTally (acc_correctAnswers acc) (S (acc_wrongAnswers acc))
                (acc_totalScore acc - negativeMarking section)%float
  | ReadInherited =>
      mkTally (acc_correctAnswers acc) (S (acc_wrongAnswers acc))
              (acc_totalScore acc - negativeMarking section)%float
  end.

(** The body of the outer [forEach]. *)
Definition score_section (answers : AnswerMap) (acc : Tally)
    (section : ExamSection) : Tally :=
  fold_left (score_question answers section) (questions section) acc.

Definition score_exam (answers : AnswerMap) (exam : Exam) : Tally :=
  fold_left (score_section answers) (sections exam) tally0.

(** [exam.sections.reduce((sum, section) => sum + section.questions.length, 0)] *)
Definition totalQuestionsOf (exam : Exam) : nat :=
  fold_left (fun sum section => sum + length (questions section))%nat
            (sections exam) 0%nat.

(** [totalQuestions * exam.markingScheme.defaultWeightage] *)
Definition divisorOf (exam : Exam) : number :=
  (number_of_nat (totalQuestionsOf exam)
   * defaultWeightage (markingScheme exam))%float.

(** [(totalScore / (totalQuestions * defaultWeightage)) * 100] *)
Definition percentageOf (exam : Exam) (totalScore : number) : number :=
  ((totalScore / divisorOf exam) * 100)%float.

(** [Math.floor((Date.now() - startTime) / 1000)] *)
Definition timeTakenOf (startTime now : Z) : Z := ((now - startTime) / 1000)%Z.

(** The object [results]. *)
Record Results : Type := mkResults {
  totalQuestions : nat;
  correctAnswers : nat;
  wrongAnswers : nat;
  score : number;
  percentage : number;
  timeTaken : Z;
  isPassed : bool;
  answers : gmap string Z
}.

Definition compute_results (exam : Exam) (answers : AnswerMap)
    (startTime now : Z) : Results :=
  let t := score_exam answers exam in
  let percentage := percentageOf exam (acc_totalScore t) in
  mkResults (totalQuestionsOf exam)
            (acc_correctAnswers t)
            (acc_wrongAnswers t)
            (acc_totalScore t)
            percentage
            (timeTakenOf startTime now)
            (number_ge percentage (passingPercentage (markingScheme exam)))
            answers.

(** ** Collaborators *)

(** What a call to an external service does. *)
Inductive Reply (A : Type) : Type :=
  | Throws
  | Returns (a : A).
Arguments Throws {A}.
Arguments Returns {A} a.

(** The argument of [ResultService.saveResult], with the nested object
    [answers] flattened. *)
Record SavePayload : Type := mkSavePayload {
  testId : string;
  userId : string;
  saved_score : number;
  userAnswers : gmap string Z;
  saved_correctAnswers : nat;
  saved_wrongAnswers : nat;
  saved_timeTaken : Z;
  saved_percentage : number;
  saved_isPassed : bool
}.

(** Modelled from the spec: [ExamService] and [ResultService] of
    [src/services], which are not among the sources, taken as parameters.
    [getExamById] resolves to an exam or to [null], or rejects;
    [saveResult] resolves or rejects. *)
Record Services : Type := mkServices {
  getExamById : string -> Reply (option Exam);
  saveResult : SavePayload -> Reply unit
}.

(** The uses of the built-in [JSON] object: [JSON_parse_exams] is [None]
    where [JSON.parse] throws or the value is no list of exams. *)
Record JSON : Type := mkJSON {
  JSON_parse_exams : string -> option (list Exam);
  JSON_stringify_exams : list Exam -> string;
  JSON_stringify_results : Results -> string
}.

(** [localStorage.getItem(k)] read in a boolean position: [null] and the
    empty string are both falsy. *)
Definition truthy (item : option string) : option string :=
  match item with
  | Some s => if decide (s = "") then None else Some s
  | None => None
  end.

(** [a || b] on two [getItem] results. *)
Definition or_else (a b : option string) : option string :=
  match truthy a with
  | Some s => Some s
  | None => b
  end.

(** ** Exam Data Accessor ([loadExam]) *)

Inductive LoadOutcome : Type :=
  | LoadFailed (error : string)
  | LoadOk (exam : Exam) (timeLeft : Z).

(** The loop that sets [hasQuestions]. *)
Definition hasQuestions (exam : Exam) : bool :=
  existsb (fun section => (0 <? length (questions section))%nat) (sections exam).

(** Lines 59-95: the lookup in the database and its validation. *)
Definition load_from_database (svc : Services) (examId : string) : LoadOutcome :=
  match getExamById svc examId with
  | Throws => LoadFailed "Failed to load exam. Please try again."
  | Returns None => LoadFailed "Exam not found"
  | Returns (Some currentExam) =>
      if (length (sections currentExam) =? 0)%nat then
        LoadFailed "This exam has no questions"
      else if negb (hasQuestions currentExam) then
        LoadFailed "This exam has no questions"
      else LoadOk currentExam (duration currentExam * 60)%Z
  end.

Definition loadExam (J : JSON) (svc : Services) (examId : option string)
    (storage : gmap string string) : LoadOutcome :=
  match truthy examId with
  | None => LoadFailed "Invalid exam ID"
  | Some examId =>
      match truthy (or_else (storage !! "stream_exams_engineering")
                            (storage !! "stream_exams_pharmacy")) with
      | Some cachedExams =>
          match JSON_parse_exams J cachedExams with
          | None => LoadFailed "Failed to load exam. Please try again."
          | Some allExams =>
              match find (fun e => String.eqb (exam_id e) examId) allExams with
              | Some cachedExam =>
                  LoadOk cachedExam (duration cachedExam * 60)%Z
              | None => load_from_database svc examId
              end
          end
      | None => load_from_database svc examId
      end
  end.

(** The validation of lines 61-90, as a property of an exam. *)
Definition validated (exam : Exam) : Prop :=
  (1 <= length (sections exam))%nat /\
  exists section, In section (sections exam) /\
                  (1 <= length (questions section))%nat.

(** ** Result Persister (the second half of [handleSubmit]) *)

Inductive Event : Type :=
  | EvSetIsLoading (b : bool)
  | EvSetItem (key value : string)
  | EvSaveResult (p : SavePayload)
  | EvConsoleError (msg : string)
  | EvNavigate (path : string).

(** The browser as [handleSubmit] sees it: the key/value store, and what
    the page did so far, oldest first. *)
Record World : Type := mkWorld {
  localStorage : gmap string string;
  trace : list Event
}.

Definition emit (ev : Event) (w : World) : World :=
  mkWorld (localStorage w) (trace w ++ [ev]).

(** [localStorage.setItem(key, value)] *)
Definition setItem (key value : string) (w : World) : World :=
  mkWorld (<[key := value]> (localStorage w)) (trace w ++ [EvSetItem key value]).

Definition resultKey (examId : string) : string := "examResult_" +:+ examId.
Definition resultPath (examId : string) : string :=
  "/exam/" +:+ examId +:+ "/result".

(** [user?.email || 'anonymous'] *)
Definition userIdOf (email : option string) : string :=
  match truthy email with
  | Some e => e
  | None => "anonymous"
  end.

Definition payloadOf (examId : string) (email : option string) (r : Results)
    : SavePayload :=
  mkSavePayload examId (userIdOf email) (score r) (answers r)
                (correctAnswers r) (wrongAnswers r) (timeTaken r)
                (percentage r) (isPassed r).

(** [exams.findIndex(p)], [None] for [-1]. *)
Fixpoint findIndex {A : Type} (p : A -> bool) (l : list A) : option nat :=
  match l with
  | [] => None
  | x :: l' => if p x then Some 0%nat else option_map S (findIndex p l')
  end.

Definition touch (iso : string) (e : Exam) : Exam :=
  mkExam (exam_id e) (title e) (duration e) (sections e) (markingScheme e)
         (Some iso).

(** Lines 193-202, reached when the remote save resolved. *)
Definition mark_attempted (J : JSON) (examId iso : string) (w : World) : World :=
  let stored :=
    match truthy (localStorage w !! "exams") with
    | Some s => s
    | None => "[]"
    end in
  match JSON_parse_exams J stored with
  | None => emit (EvConsoleError "Error submitting exam:") w
  | Some exams =>
      let w' :=
        match findIndex (fun e => String.eqb (exam_id e) examId) exams with
        | Some examIndex =>
            setItem "exams"
              (JSON_stringify_exams J (alter (touch iso) examIndex exams)) w
        | None => w
        end in
      emit (EvSetIsLoading false) w'
  end.

(** [handleSubmit], with the component state it closes over ([exam],
    [examId], [answers], [startTime], [user]) and the two clock readings
    ([Date.now()] in milliseconds, [new Date().toISOString()]) as arguments. *)
Definition handleSubmit (J : JSON) (svc : Services)
    (exam : option Exam) (examId : option string) (answers : AnswerMap)
    (startTime : Z) (email : option string) (now : Z) (iso : string)
    (w : World) : World :=
  match exam, truthy examId with
  | Some exam, Some examId =>
      let w1 := emit (EvSetIsLoading true) w in
      let results := compute_results exam answers startTime now in
      let w2 := setItem (resultKey examId) (JSON_stringify_results J results) w1 in
      let payload := payloadOf examId email results in
      let w3 := emit (EvSaveResult payload) w2 in
      let w4 :=
        match saveResult svc payload with
        | Throws => emit (EvConsoleError "Error submitting exam:") w3
        | Returns _ => mark_attempted J examId iso w3
        end in
      emit (EvNavigate (resultPath examId)) w4
  | _, _ => w
  end.

(** The results that a run of [handleSubmit] computes, if it gets that far. *)
Definition submitted_results (exam : option Exam) (examId : option string)
    (answers : AnswerMap) (startTime now : Z) : option Results :=
  match exam, truthy examId with
  | Some exam, Some _ => Some (compute_results exam answers startTime now)
  | _, _ => None
  end.

(** ** Countdown Controller (the timer effect) *)

(** [timeLeft], whether an interval is registered, and how many times the
    interval's callback called [handleSubmit]. *)
Record Countdown : Type := mkCountdown {
  timeLeft : Z;
  timer : bool;
  fired : nat
}.

(** The effect body, run after every change of [timeLeft]: an interval is
    registered exactly when [timeLeft > 0] (the previous one was cleared by
    the effect's cleanup). *)
Definition timer_effect (timeLeft : Z) : bool := (0 <? timeLeft)%Z.

(** The updater passed to [setTimeLeft]: the next value, and whether the
    branch [prev <= 1] ([clearInterval], [handleSubmit]) was taken. *)
Definition tick_updater (prev : Z) : Z * bool := ((prev - 1)%Z, (prev <=? 1)%Z).

(** One second elapses: a registered interval runs its callback, then the
    effect runs again for the new [timeLeft]; without a registered interval
    nothing is scheduled and nothing happens. *)
Definition tick (c : Countdown) : Countdown :=
  if timer c then
    let '(next, expired) := tick_updater (timeLeft c) in
    mkCountdown next (timer_effect next)
                (if expired then S (fired c) else fired c)
  else c.

(** The countdown once [loadExam] called [setTimeLeft(exam.duration * 60)]. *)
Definition countdown_start (exam : Exam) : Countdown :=
  mkCountdown (duration exam * 60)%Z (timer_effect (duration exam * 60)%Z) 0.

Fixpoint ticks (n : nat) (c : Countdown) : Countdown :=
  match n with
  | O => c
  | S n' => ticks n' (tick c)
  end.

(** ** Answer Tracker ([handleAnswer]) *)

Definition handleAnswer (questionId : string) (optionIndex : Z)
    (prev : AnswerMap) : AnswerMap :=
  <[questionId := optionIndex]> prev.

(** ** Navigation cursor (the Previous and Next buttons) *)

(** [arr[i]] for a JavaScript number [i]. *)
Definition at_index {A : Type} (l : list A) (i : Z) : option A :=
  if (i <? 0)%Z then None else l !! Z.to_nat i.

Definition len {A : Type} (l : list A) : Z := Z.of_nat (length l).

(** [currentQuestionData]: the question under the cursor, if any; the
    buttons, the options and the palette are rendered only when there is one. *)
Definition question_at (exam : Exam) (cur : Z * Z) : option Question :=
  match at_index (sections exam) (fst cur) with
  | Some currentSectionData => at_index (questions currentSectionData) (snd cur)
  | None => None
  end.

(** The [onClick] of Previous.  Where [exam.sections[currentSection - 1]] is
    undefined the second setter throws after the first one ran. *)
Definition previous (exam : Exam) (cur : Z * Z) : Z * Z :=
  let '(currentSection, currentQuestion) := cur in
  if (0 <? currentQuestion)%Z then (currentSection, currentQuestion - 1)%Z
  else if (0 <? currentSection)%Z then
    match at_index (sections exam) (currentSection - 1) with
    | Some prior => ((currentSection - 1)%Z, (len (questions prior) - 1)%Z)
    | None => ((currentSection - 1)%Z, currentQuestion)
    end
  else cur.

(** The [onClick] of Next; it reads [currentSectionData], which exists
    wherever the button does. *)
Definition next (exam : Exam) (cur : Z * Z) : Z * Z :=
  let '(currentSection, currentQuestion) := cur in
  match at_index (sections exam) currentSection with
  | Some currentSectionData =>
      if (currentQuestion <? len (questions currentSectionData) - 1)%Z then
        (currentSection, currentQuestion + 1)%Z
      else if (currentSection <? len (sections exam) - 1)%Z then
        ((currentSection + 1)%Z, 0%Z)
      else cur
  | None => cur
  end.

(** ** The attempt as a state machine *)

Record Page : Type := mkPage {
  page_exam : Exam;
  cursor : Z * Z;
  page_answers : gmap string Z;
  countdown : Countdown
}.

(** What can happen to a mounted page before it is submitted: an option of
    the current question is selected, Previous or Next is clicked, a palette
    button is clicked, a second elapses.  The options, the buttons and the
    palette exist only while the cursor addresses a question; there is an
    option per index of [options] and a palette button per question. *)
Inductive Action : Type :=
  | Select (optionIndex : Z)
  | Previous
  | Next
  | Jump (sIndex qIndex : Z)
  | Tick.

Definition step (a : Action) (p : Page) : Page :=
  match a with
  | Tick => mkPage (page_exam p) (cursor p) (page_answers p) (tick (countdown p))
  | _ =>
      match question_at (page_exam p) (cursor p) with
      | None => p
      | Some currentQuestionData =>
          match a with
          | Select optionIndex =>
              match at_index (options currentQuestionData) optionIndex with
              | Some _ =>
                  mkPage (page_exam p) (cursor p)
                         (handleAnswer (question_id currentQuestionData)
                                       optionIndex (page_answers p))
                         (countdown p)
              | None => p
              end
          | Previous =>
              mkPage (page_exam p) (previous (page_exam p) (cursor p))
                     (page_answers p) (countdown p)
          | Next =>
              mkPage (page_exam p) (next (page_exam p) (cursor p))
                     (page_answers p) (countdown p)
          | Jump sIndex qIndex =>
              match question_at (page_exam p) (sIndex, qIndex) with
              | Some _ =>
                  mkPage (page_exam p) (sIndex, qIndex) (page_answers p)
                         (countdown p)
              | None => p
              end
          | Tick => p
          end
      end
  end.

Definition run (acts : list Action) (p : Page) : Page :=
  fold_left (fun p a => step a p) acts p.

(** The page right after [loadExam] succeeded. *)
Definition page_start (exam : Exam) : Page :=
  mkPage exam (0%Z, 0%Z) ∅ (countdown_start exam).

(** ** Vocabulary of the statements *)

(** The questions in the order [handleSubmit] visits them, each with the
    section it is visited in. *)
Definition exam_items (exam : Exam) : list (ExamSection * Question) :=
  flat_map (fun section => map (pair section) (questions section))
           (sections exam).

Definition step_item (answers : AnswerMap) (acc : Tally)
    (it : ExamSection * Question) : Tally :=
  score_question answers (fst it) acc (snd it).

Definition question_ids (exam : Exam) : list string :=
  map (fun it => question_id (snd it)) (exam_items exam).

(** The question has an own entry in the map. *)
Definition answered (answers : AnswerMap) (it : ExamSection * Question) : bool :=
  match answers !! question_id (snd it) with
  | Some _ => true
  | None => false
  end.

(** The read of the question's entry is not [undefined]: the Scorer counts
    the question. *)
Definition counted (answers : AnswerMap) (it : ExamSection * Question) : bool :=
  match get_answer answers (question_id (snd it)) with
  | ReadUndefined => false
  | _ => true
  end.

(** No question of the exam goes by a name that objects inherit. *)
Definition own_names (exam : Exam) : Prop :=
  forall it, In it (exam_items exam) -> inherited (question_id (snd it)) = false.

Definition count_ticks (acts : list Action) : nat :=
  length (List.filter (fun a => match a with Tick => true | _ => false end) acts).

(** The interval's callback and the effect that follows it, run whether or
    not an interval is registered: a tick delivered in error. *)
Definition stray_tick (c : Countdown) : Countdown :=
  let '(next, expired) := tick_updater (timeLeft c) in
  mkCountdown next (timer_effect next)
              (if expired then S (fired c) else fired c).

(** ** Sample data *)

Definition sample_q1 : Question := mkQuestion "q1" "first" ["a"; "b"] 0 2.
Definition sample_q2 : Question := mkQuestion "q2" "second" ["a"; "b"] 0 2.
Definition sample_section : ExamSection :=
  mkSection "General" None 1 [sample_q1; sample_q2].
Definition sample_exam : Exam :=
  mkExam "e1" "Sample" 1 [sample_section] (mkMarkingScheme 2 40) None.
Definition sample_answers : gmap string Z := <["q2" := 1%Z]> (<["q1" := 0%Z]> ∅).

(** An exam without sections, as a stored collection may hold it. *)
Definition empty_exam : Exam :=
  mkExam "e0" "Empty" 1 [] (mkMarkingScheme 1 40) None.

(** A [JSON] that reads one stored collection, holding [empty_exam] alone,
    and a database that knows no exam and accepts no result. *)
Definition sample_JSON : JSON :=
  mkJSON (fun s => if String.eqb s "[e0]" then Some [empty_exam] else None)
         (fun _ => "[...]")
         (fun _ => "{...}").
Definition failing_services : Services :=
  mkServices (fun _ => Returns None) (fun _ => Throws).
Definition sample_storage : gmap string string :=
  {["stream_exams_engineering" := "[e0]"]}.

(** An exam of two sections, of two questions and of one. *)
Definition sample_q3 : Question := mkQuestion "q3" "third" ["a"; "b"; "c"] 2 4.
Definition second_section : ExamSection :=
  mkSection "Special" (Some "Pick one.") 0.25 [sample_q3].
Definition two_section_exam : Exam :=
  mkExam "e2" "Two sections" 30 [sample_section; second_section]
         (mkMarkingScheme 2 40) None.

(** An exam that breaks the data model: two questions under one identifier. *)
Definition duplicate_id_exam : Exam :=
  mkExam "e3" "Duplicate" 1
         [mkSection "General" None 1 [sample_q1; sample_q1]]
         (mkMarkingScheme 2 40) None.

(** An exam with a question whose identifier is a name objects inherit. *)
Definition inherited_name_exam : Exam :=
  mkExam "e5" "Inherited name" 1
         [mkSection "General" None 1
            [mkQuestion "constructor" "first" ["a"; "b"] 0 2]]
         (mkMarkingScheme 2 40) None.

(** Weightages a tenth and seven tenths under a default of four tenths. *)
Definition tenths_exam : Exam :=
  mkExam "e6" "Tenths" 1
         [mkSection "General" None 0
            [mkQuestion "q1" "first" ["a"; "b"] 0 0.1;
             mkQuestion "q2" "second" ["a"; "b"] 0 0.7]]
         (mkMarkingScheme 0.4 100) None.
Definition tenths_answers : gmap string Z := <["q2" := 0%Z]> (<["q1" := 0%Z]> ∅).

(** ** Vocabulary of the further statements *)

(** The question has an own entry and the entry is its [correctAnswer]. *)
Definition is_correct (answers : AnswerMap) (it : ExamSection * Question) : bool :=
  match get_answer answers (question_id (snd it)) with
  | ReadNumber userAnswer => Z.eqb userAnswer (correctAnswer (snd it))
  | _ => false
  end.

(** The read of the question's entry is neither [undefined] nor its
    [correctAnswer]. *)
Definition is_wrong (answers : AnswerMap) (it : ExamSection * Question) : bool :=
  match get_answer answers (question_id (snd it)) with
  | ReadNumber userAnswer => negb (Z.eqb userAnswer (correctAnswer (snd it)))
  | ReadInherited => true
  | ReadUndefined => false
  end.

(** A database that holds the sample exam, and a store whose first
    collection is not JSON. *)
Definition sample_services : Services :=
  mkServices (fun _ => Returns (Some sample_exam)) (fun _ => Returns tt).
Definition corrupt_storage : gmap string string :=
  {["stream_exams_engineering" := "{oops"]}.

(** The [disabled] attributes of Previous and of Next. *)
Definition previous_disabled (cur : Z * Z) : bool :=
  ((fst cur =? 0)%Z && (snd cur =? 0)%Z)%bool.
Definition next_disabled (exam : Exam) (cur : Z * Z) : bool :=
  match at_index (sections exam) (fst cur) with
  | Some currentSectionData =>
      ((fst cur =? len (sections exam) - 1)%Z
       && (snd cur =? len (questions currentSectionData) - 1)%Z)%bool
  | None => false
  end.

(** The cursor addresses a question: the exam view is rendered. *)
Definition on_question (exam : Exam) (cur : Z * Z) : Prop :=
  is_Some (question_at exam cur).

(** Every entry of the map belongs to a question of the exam and is an
    index into the options of a question of that identifier. *)
Definition answers_of_exam (exam : Exam) (m : gmap string Z) : Prop :=
  forall k v, m !! k = Some v ->
    exists section question,
      In (section, question) (exam_items exam) /\
      question_id question = k /\
      is_Some (at_index (options question) v).

(** An exam that passes the validation with an empty first section. *)
Definition leading_empty_exam : Exam :=
  mkExam "e4" "Leading empty section" 1
         [mkSection "Empty" None 0 []; sample_section]
         (mkMarkingScheme 2 40) None.

(** ** Question palette and clock *)

Inductive PaletteStyle : Type :=
  | PaletteActive
  | PaletteAnswered
  | PaletteUnanswered.

(** A palette button: its React key, the coordinates its [onClick] passes
    to [setCurrentSection] and [setCurrentQuestion], its label and the
    branch of its [className]. *)
Record PaletteButton : Type := mkPaletteButton {
  button_key : string;
  button_sIndex : Z;
  button_qIndex : Z;
  button_label : Z;
  button_style : PaletteStyle
}.

Definition palette_button (answers : AnswerMap) (cur : Z * Z)
    (sIndex qIndex : nat) (question : Question) : PaletteButton :=
  let isAnswered :=
    match get_answer answers (question_id question) with
    | ReadUndefined => false
    | _ => true
    end in
  let isActive :=
    ((fst cur =? Z.of_nat sIndex)%Z && (snd cur =? Z.of_nat qIndex)%Z)%bool in
  mkPaletteButton (question_id question) (Z.of_nat sIndex) (Z.of_nat qIndex)
                  (Z.of_nat qIndex + 1)%Z
                  (if isActive then PaletteActive
                   else if isAnswered then PaletteAnswered
                   else PaletteUnanswered).

(** [exam.sections.map((section, sIndex) =>
       section.questions.map((question, qIndex) => ...))] *)
Definition palette (exam : Exam) (answers : AnswerMap) (cur : Z * Z)
    : list (list PaletteButton) :=
  imap (fun sIndex section =>
          imap (fun qIndex question =>
                  palette_button answers cur sIndex qIndex question)
               (questions section))
       (sections exam).

(** [Math.floor(timeLeft / 60)] and [timeLeft % 60]. *)
Definition clock_minutes (timeLeft : Z) : Z := (timeLeft / 60)%Z.
Definition clock_seconds (timeLeft : Z) : Z := Z.rem timeLeft 60.

Fixpoint repeat_string (n : nat) (s : string) : string :=
  match n with
  | O => ""
  | S n' => s +:+ repeat_string n' s
  end.

(** [s.padStart(targetLength, padString)] *)
Definition padStart (targetLength : nat) (padString s : string) : string :=
  let fillLength := (targetLength - String.length s)%nat in
  String.substring 0 fillLength (repeat_string fillLength padString) +:+ s.

(** [(timeLeft % 60).toString().padStart(2, '0')]; the number printed is an
    integer of at most two digits in absolute value. *)
Definition clock_seconds_text (timeLeft : Z) : string :=
  padStart 2 "0" (pretty (clock_seconds timeLeft)).

Definition digit (d : Z) : Ascii.ascii := Ascii.ascii_of_nat (48 + Z.to_nat d).

(** A [JSON] whose stored list of exams holds the empty exam and the sample
    exam, and a store with that list. *)
Definition listing_JSON : JSON :=
  mkJSON (fun s => if String.eqb s "[e0,e1]" then Some [empty_exam; sample_exam]
                   else None)
         (fun exams =>
            match exams !! 1%nat with
            | Some e =>
                match lastAttemptedAt e with
                | Some iso => "[e0,e1@" +:+ iso +:+ "]"
                | None => "[e0,e1]"
                end
            | None => "[]"
            end)
         (fun _ => "{...}").
Definition listing_world : World :=
  mkWorld {["exams" := "[e0,e1]"]} [].

(** ** The timer's closure *)

(** The page together with the answer map that the registered interval's
    callback closes over, and the answer maps that submissions by the timer
    have scored.  The effect runs again only when [timeLeft] changes, so the
    callback calls the [handleSubmit] of the render that followed the last
    tick, and that [handleSubmit] reads the [answers] of that render. *)
Record TimedPage : Type := mkTimedPage {
  shown : Page;
  captured : gmap string Z;
  timer_scored : list (gmap string Z)
}.

Definition step_timed (a : Action) (tp : TimedPage) : TimedPage :=
  match a with
  | Tick =>
      if timer (countdown (shown tp)) then
        mkTimedPage (step Tick (shown tp))
                    (page_answers (shown tp))
                    (if snd (tick_updater (timeLeft (countdown (shown tp))))
                     then timer_scored tp ++ [captured tp]
                     else timer_scored tp)
      else mkTimedPage (step Tick (shown tp)) (captured tp) (timer_scored tp)
  | _ => mkTimedPage (step a (shown tp)) (captured tp) (timer_scored tp)
  end.

Definition run_timed (acts : list Action) (tp : TimedPage) : TimedPage :=
  fold_left (fun tp a => step_timed a tp) acts tp.

(** Right after [loadExam] succeeded: the effect has run for the first
    [timeLeft], over the empty answer map. *)
Definition timed_start (exam : Exam) : TimedPage :=
  mkTimedPage (page_start exam) ∅ [].

(** ** Vocabulary of the facts about numbers *)

(** * Theorems *)

(** ** Scorer *)

Section ScorerFacts.
Context (answers : gmap string Z).

Lemma score_section_items (section : ExamSection) (acc : Tally) :
  score_section answers acc section =
  fold_left (step_item answers) (map (pair section) (questions section)) acc.
Proof.
  unfold score_section.
  revert acc. induction (questions section) as [|q qs IH]; intros acc.
  - reflexivity.
  - simpl. apply IH.
Qed.

(** The nested [forEach] is one pass over [exam_items]. *)
Lemma score_exam_items (exam : Exam) :
  score_exam answers exam =
  fold_left (step_item answers) (exam_items exam) tally0.
Proof.
  unfold score_exam, exam_items.
  generalize tally0.
  induction (sections exam) as [|s ss IH]; intros acc.
  - reflexivity.
  - simpl. rewrite fold_left_app, <- score_section_items. apply IH.
Qed.

Lemma step_item_uncounted (acc : Tally) (it : ExamSection * Question) :
  counted answers it = false -> step_item answers acc it = acc.
Proof.
  unfold counted, step_item, score_question.
  destruct (get_answer answers (question_id (snd it)));
    [discriminate | discriminate | reflexivity].
Qed.

Lemma step_item_counts (acc : Tally) (it : ExamSection * Question) :
  counted answers it = true ->
  (acc_correctAnswers (step_item answers acc it)
   + acc_wrongAnswers (step_item answers acc it)
   = S (acc_correctAnswers acc + acc_wrongAnswers acc))%nat.
Proof.
  unfold counted, step_item, score_question.
  destruct (get_answer answers (question_id (snd it))) as [a| |];
    [| |discriminate]; intros _.
  - destruct (Z.eqb a (correctAnswer (snd it))); simpl; lia.
  - simpl. lia.
Qed.

(** Questions whose read is [undefined] can be left out of the pass. *)
Lemma fold_items_counted_only (l : list (ExamSection * Question)) (acc : Tally) :
  fold_left (step_item answers) l acc =
  fold_left (step_item answers) (List.filter (counted answers) l) acc.
Proof.
  revert acc. induction l as [|it l IH]; intros acc; simpl.
  - reflexivity.
  - destruct (counted answers it) eqn:E; simpl.
    + apply IH.
    + rewrite step_item_uncounted by exact E. apply IH.
Qed.

Lemma fold_items_counts (l : list (ExamSection * Question)) (acc : Tally) :
  (acc_correctAnswers (fold_left (step_item answers) l acc)
   + acc_wrongAnswers (fold_left (step_item answers) l acc)
   = acc_correctAnswers acc + acc_wrongAnswers acc
     + length (List.filter (counted answers) l))%nat.
Proof.
  revert acc. induction l as [|it l IH]; intros acc; simpl.
  - lia.
  - rewrite IH. destruct (counted answers it) eqn:E; simpl.
    + rewrite step_item_counts by exact E. lia.
    + rewrite step_item_uncounted by exact E. lia.
Qed.

(** Under a name that is not inherited, counted means answered. *)
Lemma counted_own_name (it : ExamSection * Question) :
  inherited (question_id (snd it)) = false ->
  counted answers it = answered answers it.
Proof.
  intros Hown. unfold counted, answered, get_answer.
  destruct (answers !! question_id (snd it)); [reflexivity|].
  rewrite Hown. reflexivity.
Qed.

Lemma filter_counted_own_names (l : list (ExamSection * Question)) :
  (forall it, In it l -> inherited (question_id (snd it)) = false) ->
  List.filter (counted answers) l = List.filter (answered answers) l.
Proof.
  intros Hown. apply filter_ext_in. intros it Hin.
  apply counted_own_name, Hown, Hin.
Qed.
End ScorerFacts.

Lemma totalQuestionsOf_items (exam : Exam) :
  totalQuestionsOf exam = length (exam_items exam).
Proof.
  unfold totalQuestionsOf, exam_items.
  assert (G : forall ss n,
    fold_left (fun sum section => (sum + length (questions section))%nat) ss n
    = (n + length (flat_map (fun section => map (pair section) (questions section)) ss))%nat).
  { induction ss as [|s ss IH]; intros n; simpl.
    - lia.
    - rewrite IH, length_app, length_map. lia. }
  apply (G (sections exam) 0%nat).
Qed.

(** With distinct identifiers, the questions that have an entry are as many
    as the entries, provided every entry belongs to a question. *)
Lemma answered_ids_size (ids : list string) :
  NoDup ids ->
  forall m : gmap string Z,
    dom m ⊆ list_to_set ids ->
    length (List.filter (fun k => match m !! k with Some _ => true | None => false end) ids)
    = size m.
Proof.
  induction 1 as [|k ids Hk Hnd IH]; intros m Hsub.
  - simpl. assert (m = ∅) as ->.
    { apply dom_empty_iff_L. set_solver. }
    rewrite map_size_empty. reflexivity.
  - simpl. destruct (m !! k) as [v|] eqn:Ek.
    + simpl. transitivity (size (<[k := v]> (delete k m))).
      2: { rewrite insert_delete_id by exact Ek. reflexivity. }
      rewrite map_size_insert_None by apply lookup_delete_eq.
      f_equal. rewrite <- (IH (delete k m)).
      * f_equal. apply filter_ext_in. intros j Hj.
        rewrite lookup_delete_ne; [reflexivity|].
        intros ->. apply Hk. apply list_elem_of_In. exact Hj.
      * intros j Hj. rewrite dom_delete_L in Hj.
        apply elem_of_difference in Hj as [Hj Hjk].
        specialize (Hsub j Hj). rewrite list_to_set_cons in Hsub.
        apply elem_of_union in Hsub as [Hs|Hs]; [contradiction | exact Hs].
    + apply IH. intros j Hj. specialize (Hsub j Hj).
      rewrite list_to_set_cons in Hsub.
      apply elem_of_union in Hsub as [Hs|Hs]; [|exact Hs].
      apply elem_of_singleton in Hs. subst j.
      apply elem_of_dom in Hj. rewrite Ek in Hj. destruct Hj; discriminate.
Qed.

(** C1.  Wherever a question with a recorded option index stands in the
    pass, the counters after it are those before it with one more correct
    answer and [question.weightage] added to the score when the index is
    [correctAnswer], and with one more wrong answer and
    [section.negativeMarking] subtracted from the score otherwise; the rest
    of the pass continues from there. *)
Theorem scorer_answered_question
    (exam : Exam) (answers : gmap string Z)
    (pre post : list (ExamSection * Question))
    (section : ExamSection) (question : Question) (userAnswer : Z) :
  exam_items exam = (pre ++ (section, question) :: post)%list ->
  answers !! question_id question = Some userAnswer ->
  let before := fold_left (step_item answers) pre tally0 in
  let after := score_question answers section before question in
  score_exam answers exam = fold_left (step_item answers) post after /\
  (userAnswer = correctAnswer question ->
     after = mkTally (S (acc_correctAnswers before)) (acc_wrongAnswers before)
                     (acc_totalScore before + weightage question)%float) /\
  (userAnswer <> correctAnswer question ->
     after = mkTally (acc_correctAnswers before) (S (acc_wrongAnswers before))
                     (acc_totalScore before - negativeMarking section)%float).
Proof.
  intros Hsplit Hans before after. repeat split.
  - rewrite score_exam_items, Hsplit, fold_left_app. reflexivity.
  - intros ->. subst after. unfold score_question, get_answer.
    rewrite Hans, Z.eqb_refl. reflexivity.
  - intros Hne. subst after. unfold score_question, get_answer. rewrite Hans.
    destruct (Z.eqb_spec userAnswer (correctAnswer question)) as [E|_];
      [contradiction | reflexivity].
Qed.

Lemma scorer_answered_question_witness :
  exam_items sample_exam
    = ([(sample_section, sample_q1)] ++ (sample_section, sample_q2) :: [])%list /\
  sample_answers !! question_id sample_q2 = Some 1%Z /\
  score_exam sample_answers sample_exam = mkTally 1 1 (0 + 2 - 1)%float.
Proof.
  split; [reflexivity|]. split; [reflexivity|].
  destruct (scorer_answered_question sample_exam sample_answers
              [(sample_section, sample_q1)] [] sample_section sample_q2 1%Z
              eq_refl eq_refl) as (Hall & _ & Hwrong).
  rewrite Hall. cbn [fold_left] in Hwrong |- *. rewrite Hwrong by discriminate.
  reflexivity.
Defined.

Lemma answered_items_size (exam : Exam) (answers : gmap string Z) :
  NoDup (question_ids exam) ->
  dom answers ⊆ list_to_set (question_ids exam) ->
  length (List.filter (answered answers) (exam_items exam)) = size (dom answers).
Proof.
  intros Hnd Hsub. rewrite size_dom.
  rewrite <- (answered_ids_size (question_ids exam) Hnd answers Hsub).
  unfold question_ids.
  induction (exam_items exam) as [|it l IH]; simpl.
  - reflexivity.
  - unfold answered at 1.
    destruct (answers !! question_id (snd it)); simpl; rewrite IH; reflexivity.
Qed.

(** Where no question goes by an inherited name, the questions are distinct
    and the keys of the map are among them, the Scorer counts exactly the
    entries of the map and passes over every other question. *)
Lemma own_names_count_entries (exam : Exam) (answers : gmap string Z) :
  own_names exam ->
  NoDup (question_ids exam) ->
  dom answers ⊆ list_to_set (question_ids exam) ->
  (acc_correctAnswers (score_exam answers exam)
   + acc_wrongAnswers (score_exam answers exam) = size (dom answers))%nat.
Proof.
  intros Hown Hnd Hsub.
  rewrite score_exam_items, fold_items_counts.
  rewrite (filter_counted_own_names answers (exam_items exam) Hown).
  rewrite (answered_items_size exam answers Hnd Hsub). reflexivity.
Qed.

(** C2.  The read [answers[question.id]] of a question without an entry is
    not [undefined] when the identifier is a name objects inherit.  In the
    exam whose one question is called [constructor], scored against the
    empty answer map, the question is counted as a wrong answer and the
    penalty of its section is taken off the score, although the map has no
    key: correct count plus wrong count is 1, not 0. *)
Theorem scorer_counts_inherited_name_as_wrong :
  question_ids inherited_name_exam = ["constructor"] /\
  size (dom (∅ : gmap string Z)) = 0%nat /\
  (∅ : gmap string Z) !! "constructor" = None /\
  score_exam ∅ inherited_name_exam = mkTally 0 1 (-1)%float /\
  wrongAnswers (compute_results inherited_name_exam ∅ 0 1000) = 1%nat /\
  score (compute_results inherited_name_exam ∅ 0 1000) = (-1)%float.
Proof.
  split; [reflexivity|]. split; [reflexivity|]. split; [reflexivity|].
  split; [|split]; vm_compute; reflexivity.
Qed.

(** The distinctness of the identifiers is needed as well: a question that
    occurs twice under one identifier is counted twice for its single entry. *)
Remark duplicate_identifier_counted_twice :
  size (dom ({["q1" := 0%Z]} : gmap string Z)) = 1%nat /\
  (acc_correctAnswers (score_exam {["q1" := 0%Z]} duplicate_id_exam)
   + acc_wrongAnswers (score_exam {["q1" := 0%Z]} duplicate_id_exam) = 2)%nat.
Proof.
  split; [|reflexivity]. rewrite dom_singleton_L. apply size_singleton.
Qed.
(** ** Numbers *)

(** The classifying primitives, read off the specification. *)
Lemma is_nan_spec (x : float) :
  PrimFloat.is_nan x = match Prim2SF x with S754_nan => true | _ => false end.
Proof.
  unfold PrimFloat.is_nan. rewrite FloatAxioms.eqb_spec. unfold SFeqb.
  destruct (Prim2SF x) as [s|s| |s m e]; cbn; try reflexivity.
  - destruct s; reflexivity.
  - rewrite Z.compare_refl, Pos.compare_cont_refl. destruct s; reflexivity.
Qed.

Lemma is_zero_spec (x : float) :
  PrimFloat.is_zero x = match Prim2SF x with S754_zero _ => true | _ => false end.
Proof.
  unfold PrimFloat.is_zero. rewrite FloatAxioms.eqb_spec.
  change (Prim2SF zero) with (S754_zero false). unfold SFeqb.
  destruct (Prim2SF x) as [s|s| |s m e]; cbn; try reflexivity; destruct s; reflexivity.
Qed.













Lemma number_ge_iff (x k : float) : number_ge x k = true <-> ieee_le k x.
Proof.
  unfold number_ge, ieee_le. rewrite FloatAxioms.leb_spec. unfold SFleb.
  destruct (SFcompare (Prim2SF k) (Prim2SF x)) as [[| |]|]; split; intros H;
    auto; try discriminate; destruct H; discriminate.
Qed.






Lemma zero_ge (x k : float) :
  PrimFloat.is_zero x = true -> number_ge x k = number_ge 0 k.
Proof.
  rewrite is_zero_spec. unfold number_ge. rewrite !FloatAxioms.leb_spec.
  change (Prim2SF 0) with (S754_zero false). unfold SFleb.
  destruct (Prim2SF x) as [sx|sx| |sx mx ex]; try discriminate. intros _.
  destruct (Prim2SF k) as [sk|sk| |sk mk ek]; reflexivity.
Qed.

(** Zero divided by anything but a zero or NaN, and then multiplied by 100,
    is a zero. *)
Lemma percentage_of_zero_score (d : float) :
  PrimFloat.is_zero d = false -> PrimFloat.is_nan d = false ->
  PrimFloat.is_zero ((0 / d) * 100) = true.
Proof.
  rewrite !is_zero_spec, is_nan_spec.
  rewrite FloatAxioms.mul_spec, FloatAxioms.div_spec.
  unfold SF64mul, SF64div. change (Prim2SF 0) with (S754_zero false).
  assert (H100 : exists m e, Prim2SF 100 = S754_finite false m e)
    by (eexists; eexists; reflexivity).
  destruct H100 as (m & e & ->).
  destruct (Prim2SF d) as [sd|sd| |sd md ed]; intros Hz Hn;
    try discriminate; reflexivity.
Qed.

(** C3.  The percentage of a result is
    [(score / (totalQuestions * defaultWeightage)) * 100] in the arithmetic
    of JavaScript numbers, where [totalQuestions] is the number of questions
    of the exam and [defaultWeightage] the one of the marking scheme, no
    weightage of a question entering the divisor; and [isPassed] is the
    comparison [passingPercentage <= percentage], which holds exactly when
    the passing percentage is below or equal to the percentage in the order
    of IEEE 754. *)
Theorem results_percentage_and_pass
    (exam : Exam) (answers : gmap string Z) (startTime now : Z) :
  let r := compute_results exam answers startTime now in
  totalQuestions r = length (exam_items exam) /\
  score r = acc_totalScore (score_exam answers exam) /\
  percentage r
  = ((score r / (number_of_nat (totalQuestions r)
                 * defaultWeightage (markingScheme exam))) * 100)%float /\
  isPassed r = (passingPercentage (markingScheme exam) <=? percentage r)%float /\
  (isPassed r = true
   <-> ieee_le (passingPercentage (markingScheme exam)) (percentage r)).
Proof.
  intros r. split; [apply totalQuestionsOf_items|].
  split; [reflexivity|]. split; [reflexivity|]. split; [reflexivity|].
  apply number_ge_iff.
Qed.

(** The spec's example: one correct and one wrong answer give score 1 and
    [(1 / (2 * 2)) * 100] percent, short of a threshold of 40. *)
Example sample_results :
  compute_results sample_exam sample_answers 0 61500
  = mkResults 2 1 1 1 25 61 false sample_answers.
Proof. vm_compute. reflexivity. Qed.

(** Rounding is the code's: a tenth and seven tenths add up to less than
    eight tenths, so two correct answers out of two reach
    99.99999999999999 percent and miss a threshold of 100. *)
Example tenths_results :
  compute_results tenths_exam tenths_answers 0 61500
  = mkResults 2 2 0 0.7999999999999999 99.99999999999999 61 false
              tenths_answers.
Proof. vm_compute. reflexivity. Qed.

(** ** Exam Data Accessor *)


(** An exam that comes from the database went through the validation. *)
Lemma load_from_database_ok (svc : Services) (examId : string)
    (exam : Exam) (t : Z) :
  load_from_database svc examId = LoadOk exam t ->
  getExamById svc examId = Returns (Some exam) /\ validated exam /\
  t = (duration exam * 60)%Z.
Proof.
  unfold load_from_database.
  destruct (getExamById svc examId) as [|[currentExam|]]; try discriminate.
  destruct (Nat.eqb_spec (length (sections currentExam)) 0) as [|Hlen];
    [discriminate|].
  destruct (hasQuestions currentExam) eqn:Hq; simpl; [|discriminate].
  intros [= -> <-]. split; [reflexivity|]. split; [|reflexivity].
  split; [lia|]. unfold hasQuestions in Hq.
  apply existsb_exists in Hq as (section & Hin & Hpos).
  exists section. split; [exact Hin|]. apply Nat.ltb_lt in Hpos. lia.
Qed.

(** The database path tells a missing exam from an exam without questions. *)
Lemma load_from_database_failures (svc : Services) (examId : string) :
  (getExamById svc examId = Returns None ->
   load_from_database svc examId = LoadFailed "Exam not found") /\
  (forall exam, getExamById svc examId = Returns (Some exam) ->
     ~ validated exam ->
     load_from_database svc examId = LoadFailed "This exam has no questions").
Proof.
  unfold load_from_database. split.
  - intros ->. reflexivity.
  - intros exam -> Hnot.
    destruct (Nat.eqb_spec (length (sections exam)) 0) as [|Hlen];
      [reflexivity|].
    destruct (hasQuestions exam) eqn:Hq; simpl; [|reflexivity].
    exfalso. apply Hnot. split; [lia|]. unfold hasQuestions in Hq.
    apply existsb_exists in Hq as (section & Hin & Hpos).
    exists section. split; [exact Hin|]. apply Nat.ltb_lt in Hpos. lia.
Qed.

(** On either path the countdown is set to the minutes of the exam. *)
Lemma loadExam_ok_timeLeft (J : JSON) (svc : Services) (examId : option string)
    (storage : gmap string string) (exam : Exam) (t : Z) :
  loadExam J svc examId storage = LoadOk exam t -> t = (duration exam * 60)%Z.
Proof.
  unfold loadExam.
  destruct (truthy examId) as [id|]; [|discriminate].
  destruct (truthy (or_else _ _)) as [cachedExams|].
  - destruct (JSON_parse_exams J cachedExams) as [allExams|]; [|discriminate].
    destruct (find _ allExams) as [cachedExam|].
    + intros [= <- <-]. reflexivity.
    + intros Hdb. apply load_from_database_ok in Hdb. tauto.
  - intros Hdb. apply load_from_database_ok in Hdb. tauto.
Qed.

(** C4.  The exam is validated only on the database path.  With a stored
    collection that holds an exam without any section under the requested
    identifier, [loadExam] hands that exam to the attempt, although it fails
    the validation, and the database is not asked. *)
Theorem loadExam_cached_exam_not_validated :
  loadExam sample_JSON failing_services (Some "e0") sample_storage
    = LoadOk empty_exam 60 /\
  ~ validated empty_exam /\
  load_from_database
    (mkServices (fun _ => Returns (Some empty_exam)) (fun _ => Throws)) "e0"
    = LoadFailed "This exam has no questions".
Proof.
  split; [reflexivity|]. split; [|reflexivity].
  intros [Hlen _]. simpl in Hlen. lia.
Qed.




(** ** Countdown Controller *)

(** While the registered interval mirrors [timeLeft], [n] seconds take
    [timeLeft] down to zero and no further, and the callback calls
    [handleSubmit] in the one second that takes it from 1 to 0. *)
Lemma ticks_spec (n : nat) : forall c : Countdown,
  timer c = timer_effect (timeLeft c) ->
  (0 <= timeLeft c)%Z ->
  timeLeft (ticks n c) = Z.max 0 (timeLeft c - Z.of_nat n) /\
  timer (ticks n c) = timer_effect (timeLeft (ticks n c)) /\
  fired (ticks n c)
  = (fired c + if ((0 <? timeLeft c) && (timeLeft c <=? Z.of_nat n))%Z
               then 1 else 0)%nat.
Proof.
  induction n as [|n IH]; intros c Htimer Hpos.
  - simpl ticks. split; [lia|]. split; [exact Htimer|].
    destruct (Z.ltb_spec 0 (timeLeft c)); destruct (Z.leb_spec (timeLeft c) (Z.of_nat 0));
      simpl; lia.
  - cbn [ticks].
    destruct (Z.ltb_spec 0 (timeLeft c)) as [Hlt|Hge].
    + assert (Htick : tick c
                = mkCountdown (timeLeft c - 1) (timer_effect (timeLeft c - 1))
                    (if (timeLeft c <=? 1)%Z then S (fired c) else fired c)).
      { unfold tick. rewrite Htimer. unfold timer_effect at 1.
        destruct (Z.ltb_spec 0 (timeLeft c)); [reflexivity | lia]. }
      rewrite Htick.
      destruct (IH (mkCountdown (timeLeft c - 1) (timer_effect (timeLeft c - 1))
                      (if (timeLeft c <=? 1)%Z then S (fired c) else fired c)))
        as (Ht & Hr & Hf); [reflexivity | simpl; lia |].
      cbn [timeLeft fired] in Ht, Hf. rewrite Hr, Ht, Hf. split; [lia|].
      split; [reflexivity|].
      destruct (Z.leb_spec (timeLeft c) 1);
        destruct (Z.ltb_spec 0 (timeLeft c - 1));
        destruct (Z.leb_spec (timeLeft c - 1) (Z.of_nat n));
        destruct (Z.leb_spec (timeLeft c) (Z.of_nat (S n)));
        simpl; lia.
    + assert (Htick : tick c = c).
      { unfold tick. rewrite Htimer. unfold timer_effect.
        destruct (Z.ltb_spec 0 (timeLeft c)); [lia | reflexivity]. }
      rewrite Htick.
      destruct (IH c) as (Ht & Hr & Hf); [exact Htimer | exact Hpos |].
      rewrite Hr, Ht, Hf. split; [lia|]. split; [reflexivity|].
      destruct (Z.ltb_spec 0 (timeLeft c)); simpl; lia.
Qed.

(** Whatever else happens on the page, the countdown sees the seconds only. *)
Lemma run_countdown (acts : list Action) : forall p : Page,
  countdown (run acts p) = ticks (count_ticks acts) (countdown p).
Proof.
  unfold run, count_ticks.
  induction acts as [|a acts IH]; intros p; [reflexivity|].
  cbn [fold_left]. rewrite IH.
  assert (Hother : forall p, a <> Tick -> countdown (step a p) = countdown p).
  { intros p0 Ha. unfold step.
    destruct (question_at (page_exam p0) (cursor p0)); destruct a;
      try reflexivity; try contradiction.
    - destruct (at_index (options q) optionIndex); reflexivity.
    - destruct (question_at (page_exam p0) (sIndex, qIndex)); reflexivity. }
  destruct a; cbn [List.filter length ticks];
    try (rewrite Hother by discriminate; reflexivity).
  reflexivity.
Qed.

(** The callback taken alone has no memory of having fired: run on a
    countdown that stands at zero it would take the [prev <= 1] branch once
    more.  What keeps it from running is that no interval is registered any
    more. *)
Remark tick_updater_unguarded : tick_updater 0 = ((-1)%Z, true).
Proof. reflexivity. Qed.

(** C5, as stated, fails: the callback keeps no record of having fired.
    For the exam of one minute, the sixtieth second calls [handleSubmit];
    a tick delivered in error after that finds zero, takes the branch
    [prev <= 1] again and calls [handleSubmit] a second time. *)
Lemma countdown_stray_tick_fires_again :
  timeLeft (ticks 60 (countdown_start sample_exam)) = 0%Z /\
  timer (ticks 60 (countdown_start sample_exam)) = false /\
  fired (ticks 60 (countdown_start sample_exam)) = 1%nat /\
  fired (stray_tick (ticks 60 (countdown_start sample_exam))) = 2%nat.
Proof. repeat split; vm_compute; reflexivity. Qed.

(** C5, amended.  The countdown starts at [exam.duration * 60], the value
    [loadExam] sets on both of its paths.  For a positive duration each of
    the first [duration * 60] seconds takes one off, with the interval
    registered and [handleSubmit] not called; from then on, however many
    more seconds elapse, the value is zero, no interval is registered and
    [handleSubmit] has been called by the timer exactly once, also when
    clicks are interleaved with the seconds: the cancelled interval
    delivers no further tick.  The callback itself is not guarded: were it
    run once more after the expiry, it would call [handleSubmit] a second
    time. *)
Theorem countdown_fires_once (exam : Exam) :
  (0 < duration exam)%Z ->
  let c0 := countdown_start exam in
  (forall J svc examId storage t,
     loadExam J svc examId storage = LoadOk exam t ->
     t = (duration exam * 60)%Z) /\
  timeLeft c0 = (duration exam * 60)%Z /\
  (forall n : nat, (Z.of_nat n < duration exam * 60)%Z ->
     timeLeft (ticks n c0) = (duration exam * 60 - Z.of_nat n)%Z /\
     timer (ticks n c0) = true /\ fired (ticks n c0) = 0%nat) /\
  (forall n : nat, (duration exam * 60 <= Z.of_nat n)%Z ->
     timeLeft (ticks n c0) = 0%Z /\
     timer (ticks n c0) = false /\ fired (ticks n c0) = 1%nat) /\
  (forall acts : list Action,
     (duration exam * 60 <= Z.of_nat (count_ticks acts))%Z ->
     fired (countdown (run acts (page_start exam))) = 1%nat) /\
  (forall n : nat, (duration exam * 60 <= Z.of_nat n)%Z ->
     fired (stray_tick (ticks n c0)) = 2%nat).
Proof.
  intros Hd c0.
  assert (Hspec : forall n,
    timeLeft (ticks n c0) = Z.max 0 (duration exam * 60 - Z.of_nat n) /\
    timer (ticks n c0) = timer_effect (timeLeft (ticks n c0)) /\
    fired (ticks n c0)
    = (if ((0 <? duration exam * 60) && (duration exam * 60 <=? Z.of_nat n))%Z
       then 1 else 0)%nat).
  { intros n. destruct (ticks_spec n c0) as (Ht & Hr & Hf);
      [reflexivity | simpl; lia |]. auto. }
  split; [intros J svc examId storage t; apply loadExam_ok_timeLeft|].
  split; [reflexivity|]. split; [|split; [|split]].
  - intros n Hn. destruct (Hspec n) as (Ht & Hr & Hf).
    rewrite Hr, Hf, Ht. unfold timer_effect.
    destruct (Z.ltb_spec 0 (duration exam * 60)); [|lia].
    destruct (Z.leb_spec (duration exam * 60) (Z.of_nat n)); [lia|].
    destruct (Z.ltb_spec 0 (Z.max 0 (duration exam * 60 - Z.of_nat n))); [|lia].
    simpl. repeat split; lia.
  - intros n Hn. destruct (Hspec n) as (Ht & Hr & Hf).
    rewrite Hr, Hf, Ht. unfold timer_effect.
    destruct (Z.ltb_spec 0 (duration exam * 60)); [|lia].
    destruct (Z.leb_spec (duration exam * 60) (Z.of_nat n)); [|lia].
    destruct (Z.ltb_spec 0 (Z.max 0 (duration exam * 60 - Z.of_nat n))); [lia|].
    simpl. repeat split; lia.
  - intros acts Hn. rewrite run_countdown.
    destruct (Hspec (count_ticks acts)) as (_ & _ & Hf).
    change (countdown (page_start exam)) with c0. rewrite Hf.
    destruct (Z.ltb_spec 0 (duration exam * 60)); [|lia].
    destruct (Z.leb_spec (duration exam * 60) (Z.of_nat (count_ticks acts))); [|lia].
    reflexivity.
  - intros n Hn. destruct (Hspec n) as (Ht & _ & Hf).
    unfold stray_tick, tick_updater. rewrite Ht, Hf.
    destruct (Z.ltb_spec 0 (duration exam * 60)); [|lia].
    destruct (Z.leb_spec (duration exam * 60) (Z.of_nat n)); [|lia].
    replace (Z.max 0 (duration exam * 60 - Z.of_nat n)) with 0%Z by lia.
    reflexivity.
Qed.

Lemma countdown_fires_once_witness :
  (0 < duration sample_exam)%Z /\
  timeLeft (countdown_start sample_exam) = 60%Z /\
  fired (ticks 59 (countdown_start sample_exam)) = 0%nat /\
  fired (ticks 60 (countdown_start sample_exam)) = 1%nat /\
  fired (ticks 75 (countdown_start sample_exam)) = 1%nat /\
  fired (stray_tick (ticks 75 (countdown_start sample_exam))) = 2%nat.
Proof.
  assert (Hd : (0 < duration sample_exam)%Z) by (simpl; lia).
  split; [exact Hd|].
  destruct (countdown_fires_once sample_exam Hd)
    as (_ & H0 & Hbefore & Hafter & _ & Hstray).
  split; [exact H0|]. split; [|split; [|split]].
  - apply (Hbefore 59%nat). simpl. lia.
  - apply (Hafter 60%nat). simpl. lia.
  - apply (Hafter 75%nat). simpl. lia.
  - apply (Hstray 75%nat). simpl. lia.
Defined.

(** ** Navigation cursor *)

Lemma at_index_Some {A : Type} (l : list A) (i : Z) (x : A) :
  at_index l i = Some x -> (0 <= i < len l)%Z /\ l !! Z.to_nat i = Some x.
Proof.
  unfold at_index, len. destruct (Z.ltb_spec i 0); [discriminate|].
  intros Hx. split; [|exact Hx]. apply lookup_lt_Some in Hx. lia.
Qed.

Lemma at_index_in_range {A : Type} (l : list A) (i : Z) :
  (0 <= i < len l)%Z -> exists x, at_index l i = Some x.
Proof.
  unfold at_index, len. intros Hi.
  destruct (Z.ltb_spec i 0); [lia|].
  destruct (lookup_lt_is_Some_2 l (Z.to_nat i)) as [x Hx]; [lia|].
  exists x. exact Hx.
Qed.





(** ** Answer Tracker *)

Lemma step_keeps_answers (a : Action) (p : Page) :
  dom (page_answers p) ⊆ dom (page_answers (step a p)).
Proof.
  unfold step.
  destruct (question_at (page_exam p) (cursor p)) as [currentQuestionData|];
    destruct a; cbn [page_answers]; try reflexivity.
  - destruct (at_index (options currentQuestionData) optionIndex);
      cbn [page_answers]; [|reflexivity].
    unfold handleAnswer. rewrite dom_insert_L. apply union_subseteq_r.
  - destruct (question_at (page_exam p) (sIndex, qIndex)); reflexivity.
Qed.

(** C9.  Recording an option index for a question makes it that question's
    entry, whatever the entry was, and leaves every other question's entry
    as it was; no step of the page takes a key out of the answer map, so
    along any sequence of steps the set of answered identifiers only grows. *)
Theorem answers_replaced_never_removed :
  (forall (questionId : string) (optionIndex : Z) (prev : gmap string Z),
     handleAnswer questionId optionIndex prev !! questionId = Some optionIndex /\
     (forall other, other <> questionId ->
        handleAnswer questionId optionIndex prev !! other = prev !! other) /\
     dom (handleAnswer questionId optionIndex prev) = {[questionId]} ∪ dom prev) /\
  (forall (a : Action) (p : Page),
     dom (page_answers p) ⊆ dom (page_answers (step a p))) /\
  (forall (acts : list Action) (p : Page),
     dom (page_answers p) ⊆ dom (page_answers (run acts p))).
Proof.
  split; [|split].
  - intros questionId optionIndex prev. unfold handleAnswer. split; [|split].
    + apply lookup_insert_eq.
    + intros other Hne. apply lookup_insert_ne. congruence.
    + apply dom_insert_L.
  - apply step_keeps_answers.
  - unfold run. induction acts as [|a acts IH]; intros p; [reflexivity|].
    cbn [fold_left]. etransitivity; [apply (step_keeps_answers a)|apply IH].
Qed.

(** A selection made and then revised on the sample exam. *)
Example select_then_revise :
  page_answers (run [Select 1; Next; Select 0; Previous; Select 0]
                    (page_start sample_exam))
  = <["q2" := 0%Z]> (<["q1" := 0%Z]> ∅).
Proof. apply map_eq. intros k. vm_compute. reflexivity. Qed.

(** ** Result Persister *)

Lemma truthy_nonempty (s : string) : s <> "" -> truthy (Some s) = Some s.
Proof.
  intros Hs. unfold truthy. destruct (decide (s = "")); [contradiction|].
  reflexivity.
Qed.

Lemma resultKey_not_exams (examId : string) : "exams" <> resultKey examId.
Proof. unfold resultKey. simpl. discriminate. Qed.

Lemma mark_attempted_effect (J : JSON) (examId iso : string) (w : World) :
  (exists rest, trace (mark_attempted J examId iso w) = (trace w ++ rest)%list) /\
  localStorage (mark_attempted J examId iso w) !! resultKey examId
  = localStorage w !! resultKey examId.
Proof.
  unfold mark_attempted.
  destruct (JSON_parse_exams J _) as [exams|].
  - destruct (findIndex _ exams) as [examIndex|]; cbn [emit setItem trace localStorage].
    + split.
      * rewrite <- app_assoc. eexists. reflexivity.
      * apply lookup_insert_ne, resultKey_not_exams.
    + split; [eexists; reflexivity | reflexivity].
  - cbn [emit trace localStorage]. split; [eexists; reflexivity | reflexivity].
Qed.

(** Whatever the remote save does, a submission first records the
    serialized results under [examResult_<examId>], then calls the remote
    save, ends with the navigation to the results view, and leaves the
    serialized results under that key. *)
Lemma handleSubmit_always (J : JSON) (svc : Services) (exam : Exam)
    (examId : string) (answers : gmap string Z) (startTime : Z)
    (email : option string) (now : Z) (iso : string) (w : World) :
  examId <> "" ->
  let r := compute_results exam answers startTime now in
  let w' := handleSubmit J svc (Some exam) (Some examId) answers startTime
                         email now iso w in
  (exists rest,
     trace w' = (trace w
                 ++ [EvSetIsLoading true;
                     EvSetItem (resultKey examId) (JSON_stringify_results J r);
                     EvSaveResult (payloadOf examId email r)]
                 ++ rest ++ [EvNavigate (resultPath examId)])%list) /\
  localStorage w' !! resultKey examId = Some (JSON_stringify_results J r).
Proof.
  intros Hid r w'. subst w'. unfold handleSubmit.
  rewrite (truthy_nonempty examId Hid). fold r.
  destruct (saveResult svc (payloadOf examId email r)).
  - cbn [emit setItem trace localStorage]. split.
    + exists [EvConsoleError "Error submitting exam:"].
      rewrite <- !app_assoc. reflexivity.
    + apply lookup_insert_eq.
  - match goal with
    | |- context [mark_attempted J examId iso ?w0] =>
        destruct (mark_attempted_effect J examId iso w0) as [[rest Hrest] Hkey]
    end.
    cbn [emit trace localStorage]. rewrite Hrest, Hkey.
    cbn [emit setItem trace localStorage]. split.
    + exists rest. rewrite <- !app_assoc. reflexivity.
    + apply lookup_insert_eq.
Qed.

(** C6.  A submission writes the serialized results under
    [examResult_<examId>] before it calls the remote save; and when the
    remote save throws, the error is logged, the navigation to the results
    view follows, the key holds the serialized results and no other key of
    the store has changed. *)
Theorem submit_survives_failed_save (J : JSON) (svc : Services) (exam : Exam)
    (examId : string) (answers : gmap string Z) (startTime : Z)
    (email : option string) (now : Z) (iso : string) (w : World) :
  examId <> "" ->
  let r := compute_results exam answers startTime now in
  let w' := handleSubmit J svc (Some exam) (Some examId) answers startTime
                         email now iso w in
  (exists rest,
     trace w' = (trace w
                 ++ [EvSetIsLoading true;
                     EvSetItem (resultKey examId) (JSON_stringify_results J r);
                     EvSaveResult (payloadOf examId email r)]
                 ++ rest ++ [EvNavigate (resultPath examId)])%list) /\
  (saveResult svc (payloadOf examId email r) = Throws ->
     trace w' = (trace w
                 ++ [EvSetIsLoading true;
                     EvSetItem (resultKey examId) (JSON_stringify_results J r);
                     EvSaveResult (payloadOf examId email r);
                     EvConsoleError "Error submitting exam:";
                     EvNavigate (resultPath examId)])%list /\
     localStorage w' !! resultKey examId = Some (JSON_stringify_results J r) /\
     (forall key, key <> resultKey examId ->
        localStorage w' !! key = localStorage w !! key)).
Proof.
  intros Hid r w'. split.
  - apply (handleSubmit_always J svc exam examId answers startTime email now
             iso w Hid).
  - intros Hthrows. subst w'. unfold handleSubmit.
    rewrite (truthy_nonempty examId Hid). fold r. rewrite Hthrows.
    cbn [emit setItem trace localStorage]. split; [|split].
    + rewrite <- !app_assoc. reflexivity.
    + apply lookup_insert_eq.
    + intros key Hkey. apply lookup_insert_ne. congruence.
Qed.

Lemma submit_survives_failed_save_witness :
  "e1" <> "" /\
  saveResult failing_services
    (payloadOf "e1" None (compute_results sample_exam sample_answers 0 61500))
    = Throws /\
  localStorage
    (handleSubmit sample_JSON failing_services (Some sample_exam) (Some "e1")
                  sample_answers 0 None 61500 "2026-01-01T00:00:00.000Z"
                  (mkWorld ∅ []))
    !! "examResult_e1" = Some "{...}" /\
  last (trace
    (handleSubmit sample_JSON failing_services (Some sample_exam) (Some "e1")
                  sample_answers 0 None 61500 "2026-01-01T00:00:00.000Z"
                  (mkWorld ∅ [])))
  = Some (EvNavigate "/exam/e1/result").
Proof.
  assert (Hid : "e1" <> "") by discriminate.
  split; [exact Hid|]. split; [reflexivity|].
  destruct (submit_survives_failed_save sample_JSON failing_services
              sample_exam "e1" sample_answers 0 None 61500
              "2026-01-01T00:00:00.000Z" (mkWorld ∅ []) Hid)
    as (_ & Hfail).
  destruct (Hfail eq_refl) as (Htrace & Hkey & _).
  split; [exact Hkey|]. rewrite Htrace. reflexivity.
Defined.

(** ** Two runs of the Scorer *)

(** C8, as stated, fails: the elapsed time of a result is read from the
    clock, so two runs on the same exam and the same answer map, one and two
    seconds after the start of the attempt, give different results. *)
Lemma scorer_twice_elapsed_time_differs :
  timeTaken (compute_results sample_exam sample_answers 0 1000) = 1%Z /\
  timeTaken (compute_results sample_exam sample_answers 0 2000) = 2%Z /\
  compute_results sample_exam sample_answers 0 1000
  <> compute_results sample_exam sample_answers 0 2000.
Proof.
  split; [reflexivity|]. split; [reflexivity|].
  intros Heq. apply (f_equal timeTaken) in Heq. discriminate Heq.
Qed.

(** C8, amended.  Two runs of the Scorer on the same exam and the same
    answer map give results with the same total questions, correct count,
    wrong count, score, percentage, pass/fail flag and answer map, whatever
    the store, the services, the user and the clock are at each run; the
    elapsed time is the whole seconds between the start of the attempt and
    the clock reading of the run, and the two results are identical when
    these are the same at both runs; each run stores the serialization of
    its own result. *)
Theorem scorer_twice_agrees_except_elapsed_time
    (exam : Exam) (answerMap : gmap string Z) (startTime now1 now2 : Z) :
  let r1 := compute_results exam answerMap startTime now1 in
  let r2 := compute_results exam answerMap startTime now2 in
  totalQuestions r1 = totalQuestions r2 /\
  correctAnswers r1 = correctAnswers r2 /\
  wrongAnswers r1 = wrongAnswers r2 /\
  score r1 = score r2 /\
  percentage r1 = percentage r2 /\
  isPassed r1 = isPassed r2 /\
  answers r1 = answers r2 /\
  timeTaken r1 = ((now1 - startTime) / 1000)%Z /\
  timeTaken r2 = ((now2 - startTime) / 1000)%Z /\
  (((now1 - startTime) / 1000)%Z = ((now2 - startTime) / 1000)%Z -> r1 = r2) /\
  (forall J svc1 svc2 examId email1 email2 iso1 iso2 w1 w2,
     examId <> "" ->
     localStorage (handleSubmit J svc1 (Some exam) (Some examId) answerMap
                                startTime email1 now1 iso1 w1)
       !! resultKey examId = Some (JSON_stringify_results J r1) /\
     localStorage (handleSubmit J svc2 (Some exam) (Some examId) answerMap
                                startTime email2 now2 iso2 w2)
       !! resultKey examId = Some (JSON_stringify_results J r2)).
Proof.
  intros r1 r2. repeat apply conj; try reflexivity.
  - intros Heq. subst r1 r2. unfold compute_results, timeTakenOf.
    rewrite Heq. reflexivity.
  - intros J svc1 svc2 examId email1 email2 iso1 iso2 w1 w2 Hid. split.
    + apply (handleSubmit_always J svc1 exam examId answerMap startTime email1
               now1 iso1 w1 Hid).
    + apply (handleSubmit_always J svc2 exam examId answerMap startTime email2
               now2 iso2 w2 Hid).
Qed.

(** * Further properties of the page *)

(** ** Scorer: the counters in closed form, bounds, what it ignores *)

Lemma fold_items_closed_counts (answers : gmap string Z)
    (l : list (ExamSection * Question)) : forall acc : Tally,
  acc_correctAnswers (fold_left (step_item answers) l acc)
  = (acc_correctAnswers acc + length (List.filter (is_correct answers) l))%nat /\
  acc_wrongAnswers (fold_left (step_item answers) l acc)
  = (acc_wrongAnswers acc + length (List.filter (is_wrong answers) l))%nat.
Proof.
  induction l as [|it l IH]; intros acc.
  - cbn. lia.
  - cbn [fold_left List.filter].
    destruct (IH (step_item answers acc it)) as (Hc & Hw).
    rewrite Hc, Hw. clear IH Hc Hw.
    unfold step_item, score_question, is_correct, is_wrong.
    destruct (get_answer answers (question_id (snd it))) as [userAnswer| |].
    + destruct (Z.eqb userAnswer (correctAnswer (snd it)));
        cbn [negb length acc_correctAnswers acc_wrongAnswers]; lia.
    + cbn [length acc_correctAnswers acc_wrongAnswers]. lia.
    + lia.
Qed.

(** X1.  The counters of a submission in closed form: the correct count is
    the number of questions whose own entry is their [correctAnswer]; the
    wrong count is the number of questions with any other own entry, plus
    the number of questions without an own entry whose identifier is a name
    objects inherit. *)
Theorem counts_closed_form (exam : Exam) (answers : gmap string Z) :
  acc_correctAnswers (score_exam answers exam)
  = length (List.filter (is_correct answers) (exam_items exam)) /\
  acc_wrongAnswers (score_exam answers exam)
  = length (List.filter (is_wrong answers) (exam_items exam)) /\
  (forall it, is_correct answers it = true <->
     answers !! question_id (snd it) = Some (correctAnswer (snd it))) /\
  (forall it, is_wrong answers it = true <->
     (exists userAnswer, answers !! question_id (snd it) = Some userAnswer /\
                         userAnswer <> correctAnswer (snd it)) \/
     (answers !! question_id (snd it) = None /\
      inherited (question_id (snd it)) = true)).
Proof.
  rewrite score_exam_items.
  destruct (fold_items_closed_counts answers (exam_items exam) tally0)
    as (Hc & Hw).
  split; [exact Hc|]. split; [exact Hw|]. split.
  - intros it. unfold is_correct, get_answer.
    destruct (answers !! question_id (snd it)) as [a|].
    + destruct (Z.eqb_spec a (correctAnswer (snd it))) as [->|Hne];
        split; intros H; try reflexivity; try discriminate.
      injection H as H. contradiction.
    + destruct (inherited (question_id (snd it))); split; discriminate.
  - intros it. unfold is_wrong, get_answer.
    destruct (answers !! question_id (snd it)) as [a|].
    + destruct (Z.eqb_spec a (correctAnswer (snd it))) as [->|Hne]; cbn [negb].
      * split; [discriminate|].
        intros [(b & [= <-] & Hb)|[Hn _]]; [contradiction | discriminate].
      * split; [|reflexivity]. intros _. left. exists a. auto.
    + destruct (inherited (question_id (snd it))).
      * split; [|reflexivity]. intros _. right. auto.
      * split; [discriminate|].
        intros [(b & Hb & _)|[_ Hi]]; discriminate.
Qed.

(** X2.  For every exam and every answer map, also one with entries of
    foreign questions or an exam with repeated identifiers, the correct and
    the wrong count together do not exceed the number of questions. *)
Theorem counts_within_total (exam : Exam) (answers : gmap string Z)
    (startTime now : Z) :
  let r := compute_results exam answers startTime now in
  (correctAnswers r + wrongAnswers r <= totalQuestions r)%nat.
Proof.
  cbn. rewrite score_exam_items, fold_items_counts, totalQuestionsOf_items.
  pose proof (filter_length_le (counted answers) (exam_items exam)).
  cbn. lia.
Qed.

Lemma fold_items_agree (a1 a2 : gmap string Z)
    (l : list (ExamSection * Question)) : forall acc : Tally,
  (forall it, In it l -> a1 !! question_id (snd it) = a2 !! question_id (snd it)) ->
  fold_left (step_item a1) l acc = fold_left (step_item a2) l acc.
Proof.
  induction l as [|it l IH]; intros acc Hagree; [reflexivity|].
  cbn [fold_left].
  assert (Hstep : step_item a1 acc it = step_item a2 acc it).
  { unfold step_item, score_question, get_answer.
    rewrite (Hagree it); [reflexivity|]. left. reflexivity. }
  rewrite Hstep. apply IH. intros it' Hin. apply Hagree. right. exact Hin.
Qed.

(** X3.  The counters depend on the answer map only through the entries of
    the questions of the exam: two maps that agree on the identifiers of the
    exam give the same counters, so an entry under a foreign identifier, put
    in or taken out, changes nothing. *)
Theorem score_ignores_foreign_entries
    (exam : Exam) (a1 a2 : gmap string Z) :
  (forall k, k ∈ question_ids exam -> a1 !! k = a2 !! k) ->
  score_exam a1 exam = score_exam a2 exam /\
  (forall k v, k ∉ question_ids exam ->
     score_exam (<[k := v]> a1) exam = score_exam a2 exam /\
     score_exam (delete k a1) exam = score_exam a2 exam).
Proof.
  intros Hagree.
  assert (Hgen : forall b1 b2 : gmap string Z,
            (forall k, k ∈ question_ids exam -> b1 !! k = b2 !! k) ->
            score_exam b1 exam = score_exam b2 exam).
  { intros b1 b2 Hb. rewrite !score_exam_items. apply fold_items_agree.
    intros it Hin. apply Hb. unfold question_ids.
    apply list_elem_of_In. apply in_map_iff. exists it. split; [reflexivity|exact Hin]. }
  split; [apply Hgen; exact Hagree|].
  intros k v Hk. split; apply Hgen; intros j Hj.
  - rewrite lookup_insert_ne; [apply Hagree; exact Hj|].
    intros ->. contradiction.
  - rewrite lookup_delete_ne; [apply Hagree; exact Hj|].
    intros ->. contradiction.
Qed.

Lemma score_ignores_foreign_entries_witness :
  (forall k, k ∈ question_ids sample_exam -> sample_answers !! k = sample_answers !! k) /\
  ("zz" ∉ question_ids sample_exam) /\
  score_exam (<["zz" := 7%Z]> sample_answers) sample_exam
  = score_exam sample_answers sample_exam.
Proof.
  assert (Hfor : "zz" ∉ question_ids sample_exam).
  { apply (bool_decide_unpack _). vm_compute. exact I. }
  split; [reflexivity|]. split; [exact Hfor|].
  destruct (score_ignores_foreign_entries sample_exam sample_answers
              sample_answers (fun k _ => eq_refl)) as [_ Hins].
  apply (Hins "zz" 7%Z Hfor).
Defined.

(** X4.  In an exam none of whose questions goes by an inherited name, a
    submission without any answer has no correct and no wrong answer and
    score 0, and its percentage is [(0 / divisor) * 100]; where the divisor
    is neither a zero nor NaN that percentage is a zero, and the attempt
    passes exactly when the passing percentage is below or equal to zero. *)
Theorem unanswered_submission (exam : Exam) (startTime now : Z) :
  own_names exam ->
  let r := compute_results exam ∅ startTime now in
  correctAnswers r = 0%nat /\ wrongAnswers r = 0%nat /\ score r = 0%float /\
  percentage r = ((0 / divisorOf exam) * 100)%float /\
  (PrimFloat.is_zero (divisorOf exam) = false ->
   PrimFloat.is_nan (divisorOf exam) = false ->
     PrimFloat.is_zero (percentage r) = true /\
     (isPassed r = true <-> ieee_le (passingPercentage (markingScheme exam)) 0)).
Proof.
  intros Hown r.
  assert (Hzero : score_exam ∅ exam = tally0).
  { rewrite score_exam_items. revert Hown. unfold own_names. generalize tally0.
    induction (exam_items exam) as [|it l IH]; intros acc Hown; [reflexivity|].
    cbn [fold_left]. rewrite step_item_uncounted.
    - apply IH. intros it' Hin. apply Hown. right. exact Hin.
    - rewrite counted_own_name by (apply Hown; left; reflexivity).
      unfold answered. rewrite lookup_empty. reflexivity. }
  subst r. unfold compute_results. rewrite Hzero.
  cbn [correctAnswers wrongAnswers score percentage isPassed tally0
       acc_correctAnswers acc_wrongAnswers acc_totalScore].
  split; [reflexivity|]. split; [reflexivity|]. split; [reflexivity|].
  split; [reflexivity|]. intros Hz Hn. unfold percentageOf.
  pose proof (percentage_of_zero_score (divisorOf exam) Hz Hn) as Hp.
  split; [exact Hp|]. rewrite (zero_ge _ _ Hp). apply number_ge_iff.
Qed.

Lemma unanswered_submission_witness :
  own_names sample_exam /\
  percentage (compute_results sample_exam ∅ 0 1000) = 0%float /\
  isPassed (compute_results sample_exam ∅ 0 1000) = false.
Proof.
  assert (Hown : own_names sample_exam).
  { intros it [<-|[<-|[]]]; reflexivity. }
  split; [exact Hown|].
  destruct (unanswered_submission sample_exam 0 1000 Hown)
    as (_ & _ & _ & Hp & _).
  rewrite Hp. split; vm_compute; reflexivity.
Defined.

Lemma validated_has_questions (exam : Exam) :
  validated exam -> (0 < totalQuestionsOf exam)%nat.
Proof.
  intros [_ (section & Hin & Hlen)].
  rewrite totalQuestionsOf_items. unfold exam_items.
  induction (sections exam) as [|s ss IH]; [destruct Hin|].
  cbn [flat_map]. rewrite length_app, length_map.
  destruct Hin as [->|Hin]; [lia|]. specialize (IH Hin). lia.
Qed.

(** X6.  An exam that the database path lets through has at least one
    question: an exam without questions, one of the two ways to a divisor
    of zero, can reach an attempt only through the stored collection. *)
Theorem database_exam_has_question
    (svc : Services) (examId : string) (exam : Exam) (t : Z) :
  load_from_database svc examId = LoadOk exam t ->
  (1 <= totalQuestionsOf exam)%nat /\
  forall answers startTime now,
    (1 <= totalQuestions (compute_results exam answers startTime now))%nat.
Proof.
  intros Hload. apply load_from_database_ok in Hload as (_ & Hval & _).
  pose proof (validated_has_questions exam Hval) as Htotal.
  split; [lia|]. intros answers startTime now.
  cbn [compute_results totalQuestions]. lia.
Qed.

Lemma database_exam_has_question_witness :
  load_from_database sample_services "e1" = LoadOk sample_exam 60 /\
  (1 <= totalQuestionsOf sample_exam)%nat.
Proof.
  assert (Hload : load_from_database sample_services "e1"
                  = LoadOk sample_exam 60) by reflexivity.
  split; [exact Hload|].
  apply (database_exam_has_question sample_services "e1" sample_exam 60 Hload).
Defined.

(** ** Exam Data Accessor: where an exam comes from, and what stops it *)

Lemma truthy_Some (o : option string) (s : string) :
  truthy o = Some s -> o = Some s /\ s <> "".
Proof.
  unfold truthy. destruct o as [s'|]; [|discriminate].
  destruct (decide (s' = "")) as [|Hne]; [discriminate|].
  intros [= <-]. split; [reflexivity | exact Hne].
Qed.

(** X7.  Every exam [loadExam] hands to the attempt was asked for under a
    non-empty identifier, comes with [duration * 60] seconds, and is either
    an element of the parsed stored collection that carries the requested
    identifier, or the reply of the database to that identifier, validated;
    the identifier of a database reply is not compared with the request. *)
Theorem loadExam_ok_origin (J : JSON) (svc : Services)
    (examId : option string) (storage : gmap string string)
    (exam : Exam) (t : Z) :
  loadExam J svc examId storage = LoadOk exam t ->
  exists id,
    examId = Some id /\ id <> "" /\ t = (duration exam * 60)%Z /\
    ((exists cachedExams allExams,
        truthy (or_else (storage !! "stream_exams_engineering")
                        (storage !! "stream_exams_pharmacy")) = Some cachedExams /\
        JSON_parse_exams J cachedExams = Some allExams /\
        In exam allExams /\ exam_id exam = id)
     \/ (getExamById svc id = Returns (Some exam) /\ validated exam)).
Proof.
  intros Hload.
  pose proof (loadExam_ok_timeLeft J svc examId storage exam t Hload) as Ht.
  unfold loadExam in Hload.
  destruct (truthy examId) as [id|] eqn:Hid; [|discriminate].
  apply truthy_Some in Hid as [-> Hne].
  exists id. split; [reflexivity|]. split; [exact Hne|]. split; [exact Ht|].
  destruct (truthy (or_else _ _)) as [cachedExams|] eqn:Hcache.
  - destruct (JSON_parse_exams J cachedExams) as [allExams|] eqn:Hparse;
      [|discriminate].
    destruct (find _ allExams) as [cachedExam|] eqn:Hfind.
    + injection Hload as -> _. left. exists cachedExams, allExams.
      apply find_some in Hfind as [Hin Heq]. apply String.eqb_eq in Heq.
      repeat split; assumption.
    + right. apply load_from_database_ok in Hload. tauto.
  - right. apply load_from_database_ok in Hload. tauto.
Qed.

Lemma loadExam_ok_origin_witness :
  loadExam sample_JSON sample_services (Some "e1") ∅ = LoadOk sample_exam 60 /\
  validated sample_exam.
Proof.
  assert (Hload : loadExam sample_JSON sample_services (Some "e1") ∅
                  = LoadOk sample_exam 60) by reflexivity.
  split; [exact Hload|].
  destruct (loadExam_ok_origin _ _ _ _ _ _ Hload)
    as (id & _ & _ & _ & [Hcache|[_ Hval]]); [|exact Hval].
  destruct Hcache as (c & l & Hc & _). discriminate Hc.
Defined.

(** X8.  The two stored collections are not merged: once the first key,
    [stream_exams_engineering], holds a non-empty string, whatever the
    second key holds has no influence on the outcome of [loadExam]. *)
Theorem loadExam_first_collection_shadows_second (J : JSON) (svc : Services)
    (examId : option string) (storage : gmap string string) (first : string) :
  truthy (storage !! "stream_exams_engineering") = Some first ->
  forall second,
    loadExam J svc examId (<["stream_exams_pharmacy" := second]> storage)
    = loadExam J svc examId storage /\
    loadExam J svc examId (delete "stream_exams_pharmacy" storage)
    = loadExam J svc examId storage.
Proof.
  intros Hfirst second. unfold loadExam, or_else.
  rewrite lookup_insert_ne by discriminate.
  rewrite lookup_delete_ne by discriminate.
  rewrite Hfirst. split; reflexivity.
Qed.

Lemma loadExam_first_collection_shadows_second_witness :
  truthy (sample_storage !! "stream_exams_engineering") = Some "[e0]" /\
  loadExam sample_JSON sample_services (Some "e0")
           (<["stream_exams_pharmacy" := "[e1]"]> sample_storage)
  = LoadOk empty_exam 60.
Proof.
  split; [reflexivity|].
  destruct (loadExam_first_collection_shadows_second sample_JSON
              sample_services (Some "e0") sample_storage "[e0]" eq_refl "[e1]")
    as [Hins _].
  rewrite Hins. reflexivity.
Defined.

(** X9.  A stored collection that does not parse ends the load with
    "Failed to load exam. Please try again.": the database is not asked,
    whatever it holds. *)
Theorem loadExam_corrupt_collection (J : JSON) (svc : Services)
    (examId : string) (storage : gmap string string) (cachedExams : string) :
  examId <> "" ->
  truthy (or_else (storage !! "stream_exams_engineering")
                  (storage !! "stream_exams_pharmacy")) = Some cachedExams ->
  JSON_parse_exams J cachedExams = None ->
  loadExam J svc (Some examId) storage
  = LoadFailed "Failed to load exam. Please try again.".
Proof.
  intros Hid Hcache Hparse. unfold loadExam.
  rewrite (truthy_nonempty examId Hid), Hcache, Hparse. reflexivity.
Qed.

Lemma loadExam_corrupt_collection_witness :
  getExamById sample_services "e1" = Returns (Some sample_exam) /\
  loadExam sample_JSON sample_services (Some "e1") corrupt_storage
  = LoadFailed "Failed to load exam. Please try again.".
Proof.
  split; [reflexivity|].
  apply (loadExam_corrupt_collection sample_JSON sample_services "e1"
           corrupt_storage "{oops"); [discriminate | reflexivity | reflexivity].
Defined.

(** ** Countdown Controller: any duration *)

Lemma ticks_unregistered (n : nat) (c : Countdown) :
  timer c = false -> ticks n c = c.
Proof.
  intros Hoff. induction n as [|n IH]; [reflexivity|].
  cbn [ticks]. unfold tick. rewrite Hoff. exact IH.
Qed.

(** X10.  For an exam of any duration the timer calls [handleSubmit] at
    most once, however many seconds elapse.  With a duration of zero or
    less no interval is ever registered: the countdown stays as it started
    and the timer never submits.  With a duration of zero or more the
    remaining seconds never go below zero. *)
Theorem countdown_at_most_once (exam : Exam) (n : nat) :
  (fired (ticks n (countdown_start exam)) <= 1)%nat /\
  ((duration exam <= 0)%Z ->
     ticks n (countdown_start exam) = countdown_start exam /\
     timer (countdown_start exam) = false /\
     fired (ticks n (countdown_start exam)) = 0%nat) /\
  ((0 <= duration exam)%Z -> (0 <= timeLeft (ticks n (countdown_start exam)))%Z).
Proof.
  assert (Hoff : (duration exam <= 0)%Z -> timer (countdown_start exam) = false).
  { intros Hd. cbn. unfold timer_effect.
    destruct (Z.ltb_spec 0 (duration exam * 60)); [lia | reflexivity]. }
  assert (Hon : (0 <= duration exam)%Z ->
            (0 <= timeLeft (ticks n (countdown_start exam)))%Z /\
            (fired (ticks n (countdown_start exam)) <= 1)%nat).
  { intros Hd.
    destruct (ticks_spec n (countdown_start exam)) as (Ht & _ & Hf);
      [reflexivity | cbn; lia |].
    rewrite Ht, Hf. split; [lia|]. cbn [countdown_start fired].
    destruct (_ && _)%bool; lia. }
  split; [|split].
  - destruct (Z.le_gt_cases (duration exam) 0) as [Hd|Hd].
    + rewrite ticks_unregistered by (apply Hoff; exact Hd). cbn. lia.
    + apply Hon. lia.
  - intros Hd. rewrite ticks_unregistered by (apply Hoff; exact Hd).
    split; [reflexivity|]. split; [apply Hoff; exact Hd | reflexivity].
  - intros Hd. apply Hon. exact Hd.
Qed.

(** ** Navigation cursor: buttons, inverses, invariant, dead ends *)

Lemma question_at_Some (exam : Exam) (s q : Z) (question : Question) :
  question_at exam (s, q) = Some question ->
  exists section,
    at_index (sections exam) s = Some section /\
    at_index (questions section) q = Some question /\
    (0 <= s < len (sections exam))%Z /\ (0 <= q < len (questions section))%Z.
Proof.
  unfold question_at. cbn [fst snd].
  destruct (at_index (sections exam) s) as [section|] eqn:Hs; [|discriminate].
  intros Hq. exists section.
  destruct (at_index_Some _ _ _ Hs) as [Hsr _].
  destruct (at_index_Some _ _ _ Hq) as [Hqr _]. auto.
Qed.

Lemma previous_cases (exam : Exam) (s q : Z) (section : ExamSection) :
  at_index (sections exam) s = Some section ->
  (0 <= q)%Z ->
  ((0 < q)%Z /\ previous exam (s, q) = (s, (q - 1)%Z)) \/
  (q = 0%Z /\ s = 0%Z /\ previous exam (s, q) = (s, q)) \/
  (q = 0%Z /\ (0 < s)%Z /\
   exists prior, at_index (sections exam) (s - 1) = Some prior /\
     previous exam (s, q) = ((s - 1)%Z, (len (questions prior) - 1)%Z)).
Proof.
  intros Hs Hq. destruct (at_index_Some _ _ _ Hs) as [Hsr _].
  unfold previous. destruct (Z.ltb_spec 0 q) as [Hpos|Hzero].
  - left. auto.
  - right. assert (q = 0%Z) as -> by lia.
    destruct (Z.ltb_spec 0 s) as [Hspos|Hszero].
    + right. destruct (at_index_in_range (sections exam) (s - 1)) as [prior Hp];
        [lia|].
      rewrite Hp. repeat split; [exact Hspos|]. exists prior. auto.
    + left. repeat split. lia.
Qed.

Lemma next_cases (exam : Exam) (s q : Z) (section : ExamSection) :
  at_index (sections exam) s = Some section ->
  (q < len (questions section))%Z ->
  ((q < len (questions section) - 1)%Z /\ next exam (s, q) = (s, (q + 1)%Z)) \/
  (q = (len (questions section) - 1)%Z /\ s = (len (sections exam) - 1)%Z /\
   next exam (s, q) = (s, q)) \/
  (q = (len (questions section) - 1)%Z /\ (s < len (sections exam) - 1)%Z /\
   next exam (s, q) = ((s + 1)%Z, 0%Z)).
Proof.
  intros Hs Hq. destruct (at_index_Some _ _ _ Hs) as [Hsr _].
  unfold next. rewrite Hs.
  destruct (Z.ltb_spec q (len (questions section) - 1)) as [Hlt|Hge].
  - left. auto.
  - right. assert (q = (len (questions section) - 1)%Z) by lia.
    destruct (Z.ltb_spec s (len (sections exam) - 1)) as [Hslt|Hsge].
    + right. auto.
    + left. repeat split; [assumption | lia].
Qed.

(** X11.  While the exam view is shown, each of the two buttons is disabled
    exactly when clicking it would leave the cursor where it is. *)
Theorem buttons_disabled_iff_noop (exam : Exam) (cur : Z * Z) :
  on_question exam cur ->
  (previous_disabled cur = true <-> previous exam cur = cur) /\
  (next_disabled exam cur = true <-> next exam cur = cur).
Proof.
  destruct cur as [s q]. intros [question Hon].
  destruct (question_at_Some exam s q question Hon)
    as (section & Hs & Hq & Hsr & Hqr).
  split.
  - unfold previous_disabled. cbn [fst snd].
    destruct (previous_cases exam s q section Hs ltac:(lia))
      as [[Hpos ->]|[(-> & -> & ->)|(-> & Hpos & prior & _ & ->)]].
    + destruct (Z.eqb_spec q 0); [lia|]. rewrite andb_false_r.
      split; [discriminate|]. intros [= H]. lia.
    + split; reflexivity.
    + destruct (Z.eqb_spec s 0); [lia|]. cbn.
      split; [discriminate|]. intros [= H _]. lia.
  - unfold next_disabled. cbn [fst snd]. rewrite Hs.
    destruct (next_cases exam s q section Hs ltac:(lia))
      as [[Hlt ->]|[(-> & -> & ->)|(-> & Hlt & ->)]].
    + destruct (Z.eqb_spec q (len (questions section) - 1)); [lia|].
      rewrite andb_false_r. split; [discriminate|]. intros [= H]. lia.
    + rewrite !Z.eqb_refl. split; reflexivity.
    + destruct (Z.eqb_spec s (len (sections exam) - 1)); [lia|]. cbn.
      split; [discriminate|]. intros [= H]. lia.
Qed.

Lemma buttons_disabled_iff_noop_witness :
  on_question two_section_exam (1%Z, 0%Z) /\
  previous_disabled (1%Z, 0%Z) = false /\
  next two_section_exam (1%Z, 0%Z) = (1%Z, 0%Z).
Proof.
  assert (Hon : on_question two_section_exam (1%Z, 0%Z))
    by (exists sample_q3; reflexivity).
  split; [exact Hon|]. split; [reflexivity|].
  apply (buttons_disabled_iff_noop two_section_exam (1%Z, 0%Z) Hon).
  reflexivity.
Defined.

Lemma step_page_exam (a : Action) (p : Page) : page_exam (step a p) = page_exam p.
Proof.
  unfold step.
  destruct (question_at (page_exam p) (cursor p)) as [currentQuestionData|];
    destruct a; try reflexivity.
  - destruct (at_index (options currentQuestionData) optionIndex); reflexivity.
  - destruct (question_at (page_exam p) (sIndex, qIndex)); reflexivity.
Qed.

Lemma run_page_exam (acts : list Action) : forall p : Page,
  page_exam (run acts p) = page_exam p.
Proof.
  unfold run. induction acts as [|a acts IH]; intros p; [reflexivity|].
  cbn [fold_left]. rewrite IH. apply step_page_exam.
Qed.

(** X12.  While the exam view is shown, a click on Previous undoes a click
    on Next that moved the cursor onto a question, and a click on Next
    undoes a click on Previous that moved the cursor onto a question,
    across section boundaries too.  (A move into a section without
    questions leaves no button to click.) *)
Theorem previous_next_inverse (p : Page) :
  on_question (page_exam p) (cursor p) ->
  (cursor (step Next p) <> cursor p ->
   on_question (page_exam p) (cursor (step Next p)) ->
   cursor (step Previous (step Next p)) = cursor p) /\
  (cursor (step Previous p) <> cursor p ->
   on_question (page_exam p) (cursor (step Previous p)) ->
   cursor (step Next (step Previous p)) = cursor p).
Proof.
  intros [question Hon].
  assert (Hnext : cursor (step Next p) = next (page_exam p) (cursor p))
    by (unfold step; rewrite Hon; reflexivity).
  assert (Hprev : cursor (step Previous p) = previous (page_exam p) (cursor p))
    by (unfold step; rewrite Hon; reflexivity).
  destruct (cursor p) as [s q] eqn:Hcur.
  destruct (question_at_Some _ s q question Hon)
    as (section & Hs & Hq & Hsr & Hqr).
  split.
  - intros Hmoved [target Htarget].
    assert (Hstep : cursor (step Previous (step Next p))
                    = previous (page_exam p) (cursor (step Next p))).
    { unfold step at 1. rewrite step_page_exam, Htarget. reflexivity. }
    rewrite Hstep, Hnext. rewrite Hnext in Hmoved.
    destruct (next_cases _ s q section Hs ltac:(lia))
      as [[Hlt ->]|[(-> & -> & Hstay)|(Hlast & Hlt & ->)]].
    + unfold previous. destruct (Z.ltb_spec 0 (q + 1)); [|lia].
      f_equal. lia.
    + rewrite Hstay in Hmoved. contradiction.
    + unfold previous. cbn [Z.ltb Z.compare].
      destruct (Z.ltb_spec 0 (s + 1)); [|lia].
      replace (s + 1 - 1)%Z with s by lia. rewrite Hs. f_equal. lia.
  - intros Hmoved [target Htarget].
    assert (Hstep : cursor (step Next (step Previous p))
                    = next (page_exam p) (cursor (step Previous p))).
    { unfold step at 1. rewrite step_page_exam, Htarget. reflexivity. }
    rewrite Hstep, Hprev. rewrite Hprev in Hmoved.
    destruct (previous_cases _ s q section Hs ltac:(lia))
      as [[Hpos ->]|[(-> & -> & Hstay)|(-> & Hpos & prior & Hp & ->)]].
    + unfold next. rewrite Hs.
      destruct (Z.ltb_spec (q - 1) (len (questions section) - 1)); [|lia].
      f_equal. lia.
    + rewrite Hstay in Hmoved. contradiction.
    + unfold next. rewrite Hp. rewrite Z.ltb_irrefl.
      destruct (Z.ltb_spec (s - 1) (len (sections (page_exam p)) - 1)); [|lia].
      f_equal. lia.
Qed.

Lemma previous_next_inverse_witness :
  on_question two_section_exam (0%Z, 1%Z) /\
  cursor (step Next (mkPage two_section_exam (0%Z, 1%Z) ∅
                            (countdown_start two_section_exam)))
  = (1%Z, 0%Z) /\
  cursor (step Previous
            (step Next (mkPage two_section_exam (0%Z, 1%Z) ∅
                               (countdown_start two_section_exam))))
  = (0%Z, 1%Z).
Proof.
  assert (Hon : on_question two_section_exam (0%Z, 1%Z))
    by (exists sample_q2; reflexivity).
  split; [exact Hon|]. split; [reflexivity|].
  destruct (previous_next_inverse
              (mkPage two_section_exam (0%Z, 1%Z) ∅
                      (countdown_start two_section_exam)) Hon) as [Hundo _].
  apply Hundo.
  - discriminate.
  - exists sample_q3. reflexivity.
Defined.

Lemma at_index_nonempty_last {A : Type} (l : list A) :
  l <> [] -> exists x, at_index l (len l - 1) = Some x.
Proof.
  intros Hne. apply at_index_in_range. unfold len.
  destruct l; [contradiction|]. cbn [length]. lia.
Qed.

Lemma step_on_question (a : Action) (p : Page) :
  (forall section, In section (sections (page_exam p)) -> questions section <> []) ->
  on_question (page_exam p) (cursor p) ->
  on_question (page_exam (step a p)) (cursor (step a p)).
Proof.
  intros Hfull Hon. rewrite step_page_exam.
  destruct Hon as [question Hq]. unfold step. rewrite Hq.
  destruct (cursor p) as [s q] eqn:Hcur.
  destruct (question_at_Some _ s q question Hq)
    as (section & Hs & Hqs & Hsr & Hqr).
  destruct a; cbn [cursor].
  - destruct (at_index (options question) optionIndex); cbn [cursor];
      rewrite ?Hcur; exists question; exact Hq.
  - destruct (previous_cases _ s q section Hs ltac:(lia))
      as [[Hpos ->]|[(-> & -> & ->)|(-> & Hpos & prior & Hp & ->)]].
    + unfold on_question, question_at. cbn [fst snd]. rewrite Hs.
      destruct (at_index_in_range (questions section) (q - 1)) as [x Hx];
        [lia|]. exists x. exact Hx.
    + exists question. exact Hq.
    + unfold on_question, question_at. cbn [fst snd]. rewrite Hp.
      apply at_index_nonempty_last. apply Hfull.
      destruct (at_index_Some _ _ _ Hp) as [_ Hl].
      apply list_elem_of_In. apply (list_elem_of_lookup_2 _ _ _ Hl).
  - destruct (next_cases _ s q section Hs ltac:(lia))
      as [[Hlt ->]|[(-> & -> & ->)|(Hlast & Hlt & ->)]].
    + unfold on_question, question_at. cbn [fst snd]. rewrite Hs.
      destruct (at_index_in_range (questions section) (q + 1)) as [x Hx];
        [lia|]. exists x. exact Hx.
    + exists question. exact Hq.
    + destruct (at_index_in_range (sections (page_exam p)) (s + 1))
        as [following Hf]; [lia|].
      unfold on_question, question_at. cbn [fst snd]. rewrite Hf.
      apply at_index_in_range.
      assert (questions following <> []) as Hne.
      { apply Hfull. destruct (at_index_Some _ _ _ Hf) as [_ Hl].
        apply list_elem_of_In. apply (list_elem_of_lookup_2 _ _ _ Hl). }
      unfold len. destruct (questions following); [contradiction|].
      cbn [length]. lia.
  - destruct (question_at (page_exam p) (sIndex, qIndex)) as [target|] eqn:Ht;
      cbn [cursor].
    + exists target. exact Ht.
    + rewrite ?Hcur. exists question. exact Hq.
  - rewrite ?Hcur. exists question. exact Hq.
Qed.

(** X13.  In an exam that has a section and no section without questions,
    the attempt starts on a question and every selection, click and second
    leaves the cursor on a question of the same exam: the exam view, once
    shown, is never replaced by the "Unable to load exam questions" view. *)
Theorem cursor_stays_on_question (exam : Exam) (acts : list Action) :
  sections exam <> [] ->
  (forall section, In section (sections exam) -> questions section <> []) ->
  page_exam (run acts (page_start exam)) = exam /\
  on_question exam (cursor (run acts (page_start exam))).
Proof.
  intros Hsome Hfull.
  assert (Hgen : forall p, page_exam p = exam ->
            on_question exam (cursor p) ->
            on_question exam (cursor (run acts p))).
  { unfold run. induction acts as [|a acts IH]; intros p Hp Hon; [exact Hon|].
    cbn [fold_left]. apply IH.
    - rewrite step_page_exam. exact Hp.
    - rewrite <- Hp at 1. rewrite <- (step_page_exam a p).
      apply step_on_question; rewrite Hp; assumption. }
  split; [apply run_page_exam|]. apply Hgen; [reflexivity|].
  cbn [page_start cursor]. unfold on_question, question_at. cbn [fst snd].
  destruct (sections exam) as [|first rest] eqn:Hsec; [contradiction|].
  change (at_index (first :: rest) 0) with (Some first).
  assert (questions first <> []) as Hne by (apply Hfull; left; reflexivity).
  apply at_index_in_range. unfold len.
  destruct (questions first); [contradiction|]. cbn [length]. lia.
Qed.

Lemma cursor_stays_on_question_witness :
  sections two_section_exam <> [] /\
  on_question two_section_exam
    (cursor (run [Next; Next; Next; Previous; Jump 1 0; Tick]
                 (page_start two_section_exam))).
Proof.
  assert (Hsome : sections two_section_exam <> []) by discriminate.
  split; [exact Hsome|].
  apply (cursor_stays_on_question two_section_exam
           [Next; Next; Next; Previous; Jump 1 0; Tick] Hsome).
  intros section [<-|[<-|[]]]; discriminate.
Defined.

Lemma step_off_question (a : Action) (p : Page) :
  question_at (page_exam p) (cursor p) = None ->
  step a p = mkPage (page_exam p) (cursor p) (page_answers p)
                    (match a with Tick => tick (countdown p) | _ => countdown p end).
Proof.
  intros Hoff. unfold step. rewrite Hoff. destruct p, a; reflexivity.
Qed.

(** X14.  Once the cursor addresses no question, the page offers no
    control: whatever is clicked, the cursor and the answers stay as they
    are for good, and only the countdown goes on. *)
Theorem page_stuck_off_question (p : Page) (acts : list Action) :
  question_at (page_exam p) (cursor p) = None ->
  cursor (run acts p) = cursor p /\
  page_answers (run acts p) = page_answers p /\
  countdown (run acts p) = ticks (count_ticks acts) (countdown p).
Proof.
  intros Hoff. split; [|split; [|apply run_countdown]].
  - revert p Hoff. unfold run.
    induction acts as [|a acts IH]; intros p Hoff; [reflexivity|].
    cbn [fold_left]. rewrite (step_off_question a p Hoff).
    rewrite IH; [reflexivity | exact Hoff].
  - revert p Hoff. unfold run.
    induction acts as [|a acts IH]; intros p Hoff; [reflexivity|].
    cbn [fold_left]. rewrite (step_off_question a p Hoff).
    rewrite IH; [reflexivity | exact Hoff].
Qed.

Lemma page_stuck_off_question_witness :
  validated leading_empty_exam /\
  question_at (page_exam (page_start leading_empty_exam))
              (cursor (page_start leading_empty_exam)) = None /\
  cursor (run [Next; Jump 1 0; Select 0] (page_start leading_empty_exam))
  = (0%Z, 0%Z).
Proof.
  split.
  { split; [cbn; lia|]. exists sample_section.
    split; [right; left; reflexivity | cbn; lia]. }
  split; [reflexivity|].
  apply (page_stuck_off_question (page_start leading_empty_exam)
           [Next; Jump 1 0; Select 0] eq_refl).
Defined.

(** X15.  An empty neighbouring section is a dead end.  With the cursor on
    question 0 of a section whose predecessor has no question, Previous
    puts the cursor at index -1 of the predecessor; with the cursor on the
    last question of a section whose successor has no question, Next puts
    it at index 0 of the successor; neither addresses a question. *)
Theorem empty_section_traps_cursor (exam : Exam) (s q : Z) :
  on_question exam (s, q) ->
  (forall prior, q = 0%Z -> at_index (sections exam) (s - 1) = Some prior ->
     questions prior = [] ->
     previous exam (s, q) = ((s - 1)%Z, (-1)%Z) /\
     question_at exam (previous exam (s, q)) = None) /\
  (forall section following,
     at_index (sections exam) s = Some section ->
     q = (len (questions section) - 1)%Z ->
     at_index (sections exam) (s + 1) = Some following ->
     questions following = [] ->
     next exam (s, q) = ((s + 1)%Z, 0%Z) /\
     question_at exam (next exam (s, q)) = None).
Proof.
  intros [question Hon].
  destruct (question_at_Some exam s q question Hon)
    as (section & Hs & Hq & Hsr & Hqr).
  split.
  - intros prior -> Hp Hempty.
    destruct (at_index_Some _ _ _ Hp) as [Hpr _].
    assert (Hprev : previous exam (s, 0%Z) = ((s - 1)%Z, (-1)%Z)).
    { unfold previous. cbn [Z.ltb Z.compare].
      destruct (Z.ltb_spec 0 s); [|lia]. rewrite Hp, Hempty. reflexivity. }
    split; [exact Hprev|]. rewrite Hprev. unfold question_at. cbn [fst snd].
    rewrite Hp. reflexivity.
  - intros section' following Hs' -> Hf Hempty.
    rewrite Hs in Hs'. injection Hs' as <-.
    destruct (at_index_Some _ _ _ Hf) as [Hfr _].
    assert (Hnext : next exam (s, (len (questions section) - 1)%Z)
                    = ((s + 1)%Z, 0%Z)).
    { unfold next. rewrite Hs, Z.ltb_irrefl.
      destruct (Z.ltb_spec s (len (sections exam) - 1)); [reflexivity | lia]. }
    split; [exact Hnext|]. rewrite Hnext. unfold question_at. cbn [fst snd].
    rewrite Hf, Hempty. reflexivity.
Qed.

Lemma empty_section_traps_cursor_witness :
  on_question leading_empty_exam (1%Z, 0%Z) /\
  previous leading_empty_exam (1%Z, 0%Z) = (0%Z, (-1)%Z) /\
  question_at leading_empty_exam (previous leading_empty_exam (1%Z, 0%Z)) = None.
Proof.
  assert (Hon : on_question leading_empty_exam (1%Z, 0%Z))
    by (exists sample_q1; reflexivity).
  split; [exact Hon|].
  destruct (empty_section_traps_cursor leading_empty_exam 1 0 Hon) as [Hprev _].
  apply (Hprev (mkSection "Empty" None 0 [])); reflexivity.
Defined.

(** ** Answer Tracker: what the map can hold *)

Lemma question_at_in_items (exam : Exam) (cur : Z * Z) (question : Question) :
  question_at exam cur = Some question ->
  exists section, In (section, question) (exam_items exam).
Proof.
  destruct cur as [s q]. intros Hq.
  destruct (question_at_Some exam s q question Hq)
    as (section & Hs & Hqs & _ & _).
  exists section. unfold exam_items. apply in_flat_map. exists section.
  destruct (at_index_Some _ _ _ Hs) as [_ Hls].
  destruct (at_index_Some _ _ _ Hqs) as [_ Hlq].
  split.
  - apply list_elem_of_In. apply (list_elem_of_lookup_2 _ _ _ Hls).
  - apply in_map. apply list_elem_of_In. apply (list_elem_of_lookup_2 _ _ _ Hlq).
Qed.

Lemma step_answers_of_exam (a : Action) (p : Page) :
  answers_of_exam (page_exam p) (page_answers p) ->
  answers_of_exam (page_exam (step a p)) (page_answers (step a p)).
Proof.
  intros Hinv. rewrite step_page_exam. unfold step.
  destruct (question_at (page_exam p) (cursor p)) as [question|] eqn:Hq;
    destruct a; cbn [page_answers]; try exact Hinv.
  - destruct (at_index (options question) optionIndex) as [o|] eqn:Ho;
      cbn [page_answers]; [|exact Hinv].
    intros k v Hkv. unfold handleAnswer in Hkv.
    destruct (decide (question_id question = k)) as [<-|Hne].
    + rewrite lookup_insert_eq in Hkv. injection Hkv as <-.
      destruct (question_at_in_items _ _ _ Hq) as [section Hin].
      exists section, question. rewrite Ho. eauto.
    + rewrite lookup_insert_ne in Hkv by exact Hne. apply Hinv. exact Hkv.
  - destruct (question_at (page_exam p) (sIndex, qIndex)); exact Hinv.
Qed.

Lemma run_answers_of_exam (exam : Exam) (acts : list Action) :
  answers_of_exam exam (page_answers (run acts (page_start exam))).
Proof.
  assert (Hgen : forall p, page_exam p = exam ->
            answers_of_exam exam (page_answers p) ->
            answers_of_exam exam (page_answers (run acts p))).
  { unfold run. induction acts as [|a acts IH]; intros p Hp Hinv; [exact Hinv|].
    cbn [fold_left]. apply IH.
    - rewrite step_page_exam. exact Hp.
    - rewrite <- Hp at 1. rewrite <- (step_page_exam a p).
      apply step_answers_of_exam. rewrite Hp. exact Hinv. }
  apply Hgen; [reflexivity|]. intros k v Hkv. cbn in Hkv.
  rewrite lookup_empty in Hkv. discriminate.
Qed.

Lemma answers_of_exam_dom (exam : Exam) (m : gmap string Z) :
  answers_of_exam exam m -> dom m ⊆ list_to_set (question_ids exam).
Proof.
  intros Hinv k Hk. apply elem_of_dom in Hk as [v Hkv].
  destruct (Hinv k v Hkv) as (section & question & Hin & <- & _).
  apply elem_of_list_to_set. unfold question_ids.
  apply list_elem_of_In. apply in_map_iff.
  exists (section, question). split; [reflexivity | exact Hin].
Qed.

(** X16.  Whatever the user does during an attempt, every entry of the
    answer map stands under the identifier of a question of the exam and is
    an index into the options of a question with that identifier; the map
    starts empty. *)
Theorem answers_belong_to_exam (exam : Exam) (acts : list Action) :
  page_answers (page_start exam) = ∅ /\
  answers_of_exam exam (page_answers (run acts (page_start exam))) /\
  dom (page_answers (run acts (page_start exam)))
    ⊆ list_to_set (question_ids exam).
Proof.
  split; [reflexivity|]. split.
  - apply run_answers_of_exam.
  - apply answers_of_exam_dom, run_answers_of_exam.
Qed.

(** X17.  In an exam with distinct question identifiers none of which is a
    name objects inherit, whichever answer map of the attempt a submission
    scores (the current one when Submit is clicked, the one of an earlier
    moment when the timer submits), its correct and its wrong count add up
    to the number of entries of that map, which is at most the number of
    questions. *)
Theorem submission_counts_answered
    (exam : Exam) (acts : list Action) (startTime now : Z) :
  own_names exam ->
  NoDup (question_ids exam) ->
  let given := page_answers (run acts (page_start exam)) in
  let r := compute_results exam given startTime now in
  (correctAnswers r + wrongAnswers r = size given)%nat /\
  (size given <= totalQuestions r)%nat.
Proof.
  intros Hown Hnd given r.
  pose proof (answers_of_exam_dom exam given (run_answers_of_exam exam acts))
    as Hsub.
  pose proof (own_names_count_entries exam given Hown Hnd Hsub) as Hcount.
  pose proof (answered_items_size exam given Hnd Hsub) as Hsize.
  rewrite size_dom in Hcount, Hsize.
  subst r. cbn [compute_results correctAnswers wrongAnswers totalQuestions].
  split; [exact Hcount|].
  rewrite totalQuestionsOf_items, <- Hsize. apply filter_length_le.
Qed.

Lemma submission_counts_answered_witness :
  own_names sample_exam /\
  NoDup (question_ids sample_exam) /\
  (correctAnswers
     (compute_results sample_exam
        (page_answers (run [Select 1; Next; Select 1; Tick; Select 0]
                           (page_start sample_exam))) 0 5000)
   + wrongAnswers
     (compute_results sample_exam
        (page_answers (run [Select 1; Next; Select 1; Tick; Select 0]
                           (page_start sample_exam))) 0 5000)
   = 2)%nat.
Proof.
  assert (Hown : own_names sample_exam).
  { intros it [<-|[<-|[]]]; reflexivity. }
  assert (Hnd : NoDup (question_ids sample_exam))
    by (apply (bool_decide_unpack _); vm_compute; exact I).
  split; [exact Hown|]. split; [exact Hnd|].
  destruct (submission_counts_answered sample_exam
              [Select 1; Next; Select 1; Tick; Select 0] 0 5000 Hown Hnd)
    as [Hcount _].
  rewrite Hcount. vm_compute. reflexivity.
Defined.

(** ** Question palette *)

Lemma length_concat_imap {A B : Type} (g : A -> nat) (l : list A) :
  forall f : nat -> A -> list B,
    (forall i x, length (f i x) = g x) ->
    length (concat (imap f l)) = length (flat_map (fun x => repeat tt (g x)) l).
Proof.
  induction l as [|x l IH]; intros f Hf; [reflexivity|].
  cbn [imap concat flat_map]. rewrite !length_app, Hf, repeat_length.
  f_equal. apply IH. intros i y. apply Hf.
Qed.

(** X18.  The palette has one button per question of the exam.  The button
    in row [i] at place [j] carries the coordinates [(i, j)], which address
    the question whose identifier is its key, so its click always lands on
    a question; it is styled active exactly when the cursor is at its
    coordinates; otherwise it is styled answered when the read of its
    question's entry is not [undefined], that is when the map has an own
    entry for the question or the question goes by an inherited name, and
    unanswered when neither is the case.  Every question under some
    coordinates has its button. *)
Theorem palette_buttons (exam : Exam) (answers : gmap string Z) (cur : Z * Z) :
  length (concat (palette exam answers cur)) = totalQuestionsOf exam /\
  (forall i j row b,
     palette exam answers cur !! i = Some row -> row !! j = Some b ->
     button_sIndex b = Z.of_nat i /\ button_qIndex b = Z.of_nat j /\
     button_label b = (Z.of_nat j + 1)%Z /\
     (exists question,
        question_at exam (button_sIndex b, button_qIndex b) = Some question /\
        question_id question = button_key b) /\
     (button_style b = PaletteActive <-> cur = (button_sIndex b, button_qIndex b)) /\
     (button_style b = PaletteAnswered ->
        is_Some (answers !! button_key b) \/ inherited (button_key b) = true) /\
     (button_style b = PaletteUnanswered ->
        answers !! button_key b = None /\ inherited (button_key b) = false) /\
     (button_style b = PaletteUnanswered \/
      cur = (button_sIndex b, button_qIndex b) \/
      is_Some (answers !! button_key b) \/ inherited (button_key b) = true)) /\
  (forall s q question,
     question_at exam (s, q) = Some question ->
     exists row b,
       palette exam answers cur !! Z.to_nat s = Some row /\
       row !! Z.to_nat q = Some b /\
       button_sIndex b = s /\ button_qIndex b = q /\
       button_key b = question_id question).
Proof.
  split; [|split].
  - unfold palette.
    rewrite (length_concat_imap (fun section => length (questions section))).
    + rewrite totalQuestionsOf_items. unfold exam_items.
      induction (sections exam) as [|x l IH]; [reflexivity|].
      cbn [flat_map]. rewrite !length_app, IH, repeat_length, length_map.
      reflexivity.
    + intros i x. apply length_imap.
  - intros i j row b Hrow Hb. unfold palette in Hrow.
    rewrite list_lookup_imap in Hrow.
    destruct (sections exam !! i) as [section|] eqn:Hs; [|discriminate].
    injection Hrow as <-. rewrite list_lookup_imap in Hb.
    destruct (questions section !! j) as [question|] eqn:Hq; [|discriminate].
    injection Hb as <-. unfold palette_button.
    cbn [button_sIndex button_qIndex button_label button_key button_style].
    split; [reflexivity|]. split; [reflexivity|]. split; [reflexivity|]. split.
    { exists question. split; [|reflexivity].
      unfold question_at, at_index. cbn [fst snd].
      destruct (Z.ltb_spec (Z.of_nat i) 0); [lia|].
      rewrite Nat2Z.id, Hs.
      destruct (Z.ltb_spec (Z.of_nat j) 0); [lia|].
      rewrite Nat2Z.id. exact Hq. }
    destruct cur as [cs cq]. cbn [fst snd].
    destruct (Z.eqb_spec cs (Z.of_nat i)) as [->|Hcs];
      [destruct (Z.eqb_spec cq (Z.of_nat j)) as [->|Hcq]|]; cbn [andb].
    + split; [tauto|]. split; [discriminate|]. split; [discriminate|]. auto.
    + unfold get_answer.
      destruct (answers !! question_id question) as [v|];
        [|destruct (inherited (question_id question))];
        (split; [split; [discriminate | congruence]|]);
        (split; [|split]); try discriminate; eauto.
    + unfold get_answer.
      destruct (answers !! question_id question) as [v|];
        [|destruct (inherited (question_id question))];
        (split; [split; [discriminate | congruence]|]);
        (split; [|split]); try discriminate; eauto.
  - intros s q question Hq.
    destruct (question_at_Some exam s q question Hq)
      as (section & Hs & Hqs & Hsr & Hqr).
    destruct (at_index_Some _ _ _ Hs) as [_ Hls].
    destruct (at_index_Some _ _ _ Hqs) as [_ Hlq].
    exists (imap (fun qIndex question =>
                    palette_button answers cur (Z.to_nat s) qIndex question)
                 (questions section)),
           (palette_button answers cur (Z.to_nat s) (Z.to_nat q) question).
    unfold palette. rewrite !list_lookup_imap, Hls, Hlq.
    split; [reflexivity|]. split; [reflexivity|].
    unfold palette_button.
    cbn [button_sIndex button_qIndex button_key].
    split; [lia|]. split; [lia | reflexivity].
Qed.

(** ** Clock *)

Lemma seconds_text_two_digits (n : nat) :
  (n < 60)%nat ->
  padStart 2 "0" (pretty (Z.of_nat n))
  = String (digit (Z.of_nat n / 10)) (String (digit (Z.of_nat n mod 10)) "").
Proof.
  intros Hn.
  do 60 (destruct n as [|n]; [vm_compute; reflexivity|]).
  lia.
Qed.

(** X19.  While the remaining seconds are not negative, the minutes and the
    seconds on the clock add up to them, the seconds are below 60, and the
    seconds are shown as exactly two decimal digits, with a leading zero
    below ten. *)
Theorem clock_display (timeLeft : Z) :
  (0 <= timeLeft)%Z ->
  (clock_minutes timeLeft * 60 + clock_seconds timeLeft = timeLeft)%Z /\
  (0 <= clock_minutes timeLeft)%Z /\
  (0 <= clock_seconds timeLeft < 60)%Z /\
  clock_seconds_text timeLeft
  = String (digit (clock_seconds timeLeft / 10))
           (String (digit (clock_seconds timeLeft mod 10)) "") /\
  String.length (clock_seconds_text timeLeft) = 2%nat.
Proof.
  intros Hpos. unfold clock_minutes, clock_seconds_text, clock_seconds.
  rewrite Z.rem_mod_nonneg by lia.
  pose proof (Z.mod_pos_bound timeLeft 60 ltac:(lia)) as Hmod.
  pose proof (Z.div_mod timeLeft 60 ltac:(lia)) as Hdm.
  pose proof (Z.div_pos timeLeft 60 Hpos ltac:(lia)) as Hdiv.
  assert (Htext : padStart 2 "0" (pretty (timeLeft mod 60)%Z)
                  = String (digit ((timeLeft mod 60) / 10))
                           (String (digit ((timeLeft mod 60) mod 10)) "")).
  { rewrite <- (Z2Nat.id (timeLeft mod 60)) by lia.
    apply seconds_text_two_digits. lia. }
  split; [lia|]. split; [exact Hdiv|]. split; [exact Hmod|].
  split; [exact Htext|]. rewrite Htext. reflexivity.
Qed.

Lemma clock_display_witness :
  (0 <= 125)%Z /\ clock_minutes 125 = 2%Z /\ clock_seconds_text 125 = "05".
Proof.
  split; [lia|].
  destruct (clock_display 125 ltac:(lia)) as (_ & _ & _ & Htext & _).
  split; [reflexivity|]. rewrite Htext. reflexivity.
Defined.

(** ** Result Persister: the stored list of exams *)

Lemma findIndex_Some {A : Type} (p : A -> bool) (l : list A) : forall i,
  findIndex p l = Some i ->
  exists x, l !! i = Some x /\ p x = true /\
            forall j y, (j < i)%nat -> l !! j = Some y -> p y = false.
Proof.
  induction l as [|x l IH]; intros i Hfind; [discriminate|].
  cbn [findIndex] in Hfind. destruct (p x) eqn:Hpx.
  - injection Hfind as <-. exists x. split; [reflexivity|]. split; [exact Hpx|].
    intros j y Hj. lia.
  - destruct (findIndex p l) as [i'|]; [|discriminate].
    injection Hfind as <-. destruct (IH i' eq_refl) as (x' & Hl & Hp & Hbefore).
    exists x'. split; [exact Hl|]. split; [exact Hp|].
    intros [|j] y Hj Hy.
    + injection Hy as <-. exact Hpx.
    + apply (Hbefore j y); [lia | exact Hy].
Qed.

Lemma findIndex_None {A : Type} (p : A -> bool) (l : list A) :
  findIndex p l = None -> forall x, In x l -> p x = false.
Proof.
  induction l as [|y l IH]; intros Hfind x Hin; [destruct Hin|].
  cbn [findIndex] in Hfind. destruct (p y) eqn:Hpy; [discriminate|].
  destruct (findIndex p l); [discriminate|].
  destruct Hin as [<-|Hin]; [exact Hpy | apply IH; [reflexivity | exact Hin]].
Qed.

(** Every key but [examResult_<examId>] and [exams] is out of reach of
    [handleSubmit]. *)
Lemma handleSubmit_other_keys (J : JSON) (svc : Services) (exam : option Exam)
    (examId : option string) (answers : gmap string Z) (startTime : Z)
    (email : option string) (now : Z) (iso : string) (w : World) (key : string) :
  (forall id, examId = Some id -> key <> resultKey id) ->
  key <> "exams" ->
  localStorage (handleSubmit J svc exam examId answers startTime email now iso w)
    !! key = localStorage w !! key.
Proof.
  intros Hres Hexams. unfold handleSubmit.
  destruct exam as [exam|]; [|reflexivity].
  destruct (truthy examId) as [id|] eqn:Hid; [|reflexivity].
  apply truthy_Some in Hid as [-> _]. specialize (Hres id eq_refl).
  cbn [emit localStorage].
  destruct (saveResult svc _).
  - cbn [emit setItem localStorage]. apply lookup_insert_ne. congruence.
  - unfold mark_attempted.
    destruct (JSON_parse_exams J _) as [exams|].
    + destruct (findIndex _ exams); cbn [emit setItem localStorage].
      * rewrite lookup_insert_ne by congruence.
        apply lookup_insert_ne. congruence.
      * apply lookup_insert_ne. congruence.
    + cbn [emit setItem localStorage]. apply lookup_insert_ne. congruence.
Qed.

(** X20.  A submission writes to the store under [examResult_<examId>] and
    under [exams] and under no other key; without a loaded exam or without
    an identifier it leaves the whole world as it is. *)
Theorem handleSubmit_writes_two_keys (J : JSON) (svc : Services)
    (exam : option Exam) (examId : option string) (answers : gmap string Z)
    (startTime : Z) (email : option string) (now : Z) (iso : string)
    (w : World) :
  (forall key,
     (forall id, examId = Some id -> key <> resultKey id) ->
     key <> "exams" ->
     localStorage (handleSubmit J svc exam examId answers startTime email now
                                iso w) !! key
     = localStorage w !! key) /\
  (exam = None \/ examId = None \/ examId = Some "" ->
   handleSubmit J svc exam examId answers startTime email now iso w = w).
Proof.
  split.
  - intros key. apply handleSubmit_other_keys.
  - unfold handleSubmit. intros [->|[->| ->]].
    + reflexivity.
    + destruct exam; reflexivity.
    + destruct exam; reflexivity.
Qed.

(** X21.  When the remote save resolves and the list stored under [exams]
    parses, the submission rewrites that list with the first exam of the
    submitted identifier stamped with the time of the attempt: the list
    keeps its length and its identifiers, every other exam and every other
    field of the stamped exam stay as they were, the serialized results stay
    under their key, and the navigation follows.  When the list holds no
    exam of that identifier, the list is left as stored. *)
Theorem handleSubmit_stamps_first_match (J : JSON) (svc : Services)
    (exam : Exam) (examId : string) (answers : gmap string Z) (startTime : Z)
    (email : option string) (now : Z) (iso : string) (w : World)
    (stored : string) (exams : list Exam) :
  examId <> "" ->
  saveResult svc (payloadOf examId email
                    (compute_results exam answers startTime now)) = Returns tt ->
  truthy (localStorage w !! "exams") = Some stored ->
  JSON_parse_exams J stored = Some exams ->
  let w' := handleSubmit J svc (Some exam) (Some examId) answers startTime
                         email now iso w in
  (forall examIndex,
     findIndex (fun e => String.eqb (exam_id e) examId) exams = Some examIndex ->
     let exams' := alter (touch iso) examIndex exams in
     localStorage w' !! "exams" = Some (JSON_stringify_exams J exams') /\
     length exams' = length exams /\
     map exam_id exams' = map exam_id exams /\
     (forall j, j <> examIndex -> exams' !! j = exams !! j) /\
     (forall j e, (j < examIndex)%nat -> exams !! j = Some e ->
                  exam_id e <> examId) /\
     exists e, exams !! examIndex = Some e /\ exam_id e = examId /\
               exams' !! examIndex
               = Some (mkExam (exam_id e) (title e) (duration e) (sections e)
                              (markingScheme e) (Some iso))) /\
  (findIndex (fun e => String.eqb (exam_id e) examId) exams = None ->
     localStorage w' !! "exams" = Some stored /\
     forall e, In e exams -> exam_id e <> examId) /\
  localStorage w' !! resultKey examId
  = Some (JSON_stringify_results J (compute_results exam answers startTime now)) /\
  last (trace w') = Some (EvNavigate (resultPath examId)).
Proof.
  intros Hid Hsave Hstored Hparse w'.
  destruct (handleSubmit_always J svc exam examId answers startTime email now
              iso w Hid) as [[rest Htrace] Hkey].
  fold w' in Htrace, Hkey.
  assert (Hlast : last (trace w') = Some (EvNavigate (resultPath examId))).
  { rewrite Htrace, !app_assoc. apply last_snoc. }
  apply truthy_Some in Hstored as [Hraw Hne].
  assert (Hw' : localStorage w' !! "exams"
                = match findIndex (fun e => String.eqb (exam_id e) examId) exams with
                  | Some examIndex =>
                      Some (JSON_stringify_exams J (alter (touch iso) examIndex exams))
                  | None => Some stored
                  end).
  { subst w'. unfold handleSubmit. rewrite (truthy_nonempty examId Hid), Hsave.
    unfold mark_attempted. cbn [emit setItem localStorage].
    rewrite lookup_insert_ne by (intros E; symmetry in E; revert E;
                                 apply resultKey_not_exams).
    rewrite Hraw, (truthy_nonempty stored Hne), Hparse.
    destruct (findIndex _ exams); cbn [emit setItem localStorage].
    - apply lookup_insert_eq.
    - rewrite lookup_insert_ne by (intros E; symmetry in E; revert E;
                                   apply resultKey_not_exams).
      exact Hraw. }
  split; [|split; [|split; [exact Hkey | exact Hlast]]].
  - intros examIndex Hfind exams'. rewrite Hfind in Hw'.
    destruct (findIndex_Some _ _ _ Hfind) as (e & He & Hpe & Hbefore).
    apply String.eqb_eq in Hpe.
    split; [exact Hw'|]. split; [apply length_alter|]. split; [|split; [|split]].
    + subst exams'. apply list_eq. intros j.
      rewrite !list_lookup_fmap.
      destruct (decide (examIndex = j)) as [<-|Hj].
      * rewrite list_lookup_alter_eq, He. reflexivity.
      * rewrite list_lookup_alter_ne by exact Hj. reflexivity.
    + intros j Hj. apply list_lookup_alter_ne. congruence.
    + intros j e' Hj He' Heq. specialize (Hbefore j e' Hj He').
      apply String.eqb_neq in Hbefore. contradiction.
    + exists e. split; [exact He|]. split; [exact Hpe|].
      subst exams'. rewrite list_lookup_alter_eq, He. reflexivity.
  - intros Hfind. rewrite Hfind in Hw'. split; [exact Hw'|].
    intros e Hin Heq. pose proof (findIndex_None _ _ Hfind e Hin) as Hp.
    apply String.eqb_neq in Hp. contradiction.
Qed.

Lemma handleSubmit_stamps_first_match_witness :
  "e1" <> "" /\
  truthy (localStorage listing_world !! "exams") = Some "[e0,e1]" /\
  localStorage
    (handleSubmit listing_JSON sample_services (Some sample_exam) (Some "e1")
                  sample_answers 0 None 61500 "2026-01-01T00:00:00.000Z"
                  listing_world) !! "exams"
  = Some "[e0,e1@2026-01-01T00:00:00.000Z]".
Proof.
  assert (Hid : "e1" <> "") by discriminate.
  split; [exact Hid|]. split; [reflexivity|].
  destruct (handleSubmit_stamps_first_match listing_JSON sample_services
              sample_exam "e1" sample_answers 0 None 61500
              "2026-01-01T00:00:00.000Z" listing_world "[e0,e1]"
              [empty_exam; sample_exam] Hid eq_refl eq_refl eq_refl)
    as (Hstamp & _).
  destruct (Hstamp 1%nat eq_refl) as (Hstore & _).
  rewrite Hstore. reflexivity.
Defined.

(** ** Answer Tracker and Scorer together *)

(** X22.  In an exam with distinct question identifiers, recording an
    answer for a question that had no entry moves the counters of a
    submission by that question alone.  Under an identifier that is not an
    inherited name, a correct answer adds one to the correct count and a
    wrong answer adds one to the wrong count, the other counter staying as
    it was.  Under an inherited name the question was already counted as
    wrong: a correct answer moves it from the wrong count to the correct
    count, and a wrong answer changes neither count. *)
Theorem answering_moves_counters
    (exam : Exam) (answers : gmap string Z)
    (section : ExamSection) (question : Question) (optionIndex : Z) :
  NoDup (question_ids exam) ->
  In (section, question) (exam_items exam) ->
  answers !! question_id question = None ->
  let before := score_exam answers exam in
  let after :=
    score_exam (handleAnswer (question_id question) optionIndex answers) exam in
  (inherited (question_id question) = false ->
     (optionIndex = correctAnswer question ->
        acc_correctAnswers after = S (acc_correctAnswers before) /\
        acc_wrongAnswers after = acc_wrongAnswers before) /\
     (optionIndex <> correctAnswer question ->
        acc_correctAnswers after = acc_correctAnswers before /\
        acc_wrongAnswers after = S (acc_wrongAnswers before))) /\
  (inherited (question_id question) = true ->
     (optionIndex = correctAnswer question ->
        acc_correctAnswers after = S (acc_correctAnswers before) /\
        S (acc_wrongAnswers after) = acc_wrongAnswers before) /\
     (optionIndex <> correctAnswer question ->
        acc_correctAnswers after = acc_correctAnswers before /\
        acc_wrongAnswers after = acc_wrongAnswers before)).
Proof.
  intros Hnd Hin Hnone before after.
  destruct (in_split _ _ Hin) as (pre & post & Hsplit).
  unfold question_ids in Hnd. rewrite Hsplit, map_app in Hnd. cbn [map snd] in Hnd.
  apply NoDup_app in Hnd as (_ & Hpre & Hpost).
  apply NoDup_cons in Hpost as [Hpost _].
  set (given := handleAnswer (question_id question) optionIndex answers).
  assert (Hsame : forall l acc,
            (forall it, In it l -> question_id (snd it) <> question_id question) ->
            fold_left (step_item given) l acc = fold_left (step_item answers) l acc).
  { intros l acc Hl. apply fold_items_agree. intros it Hit.
    unfold given, handleAnswer. apply lookup_insert_ne.
    intros E. apply (Hl it Hit). symmetry. exact E. }
  assert (Hpre' : forall it, In it pre ->
            question_id (snd it) <> question_id question).
  { intros it Hit E. apply (Hpre (question_id (snd it))).
    - apply list_elem_of_In. apply in_map_iff. exists it. auto.
    - rewrite E. left. }
  assert (Hpost' : forall it, In it post ->
            question_id (snd it) <> question_id question).
  { intros it Hit E. apply Hpost. rewrite <- E.
    apply list_elem_of_In. apply in_map_iff. exists it. auto. }
  set (A := fold_left (step_item answers) pre tally0).
  assert (Hbefore : before = fold_left (step_item answers) post
                               (score_question answers section A question)).
  { subst before. rewrite score_exam_items, Hsplit, fold_left_app.
    reflexivity. }
  assert (Hafter : after = fold_left (step_item answers) post
                             (score_question given section A question)).
  { subst after. fold given. rewrite score_exam_items, Hsplit, fold_left_app.
    cbn [fold_left]. rewrite (Hsame pre tally0 Hpre'). fold A.
    rewrite Hsame by exact Hpost'. reflexivity. }
  destruct (fold_items_closed_counts answers post
              (score_question answers section A question)) as (Hc0 & Hw0).
  destruct (fold_items_closed_counts answers post
              (score_question given section A question)) as (Hc1 & Hw1).
  rewrite Hbefore, Hafter, Hc0, Hw0, Hc1, Hw1.
  unfold score_question, get_answer, given, handleAnswer.
  rewrite lookup_insert_eq, Hnone.
  split; intros Hname; rewrite Hname; split.
  - intros ->. rewrite Z.eqb_refl.
    cbn [acc_correctAnswers acc_wrongAnswers]. lia.
  - intros Hne.
    destruct (Z.eqb_spec optionIndex (correctAnswer question)); [contradiction|].
    cbn [acc_correctAnswers acc_wrongAnswers]. lia.
  - intros ->. rewrite Z.eqb_refl.
    cbn [acc_correctAnswers acc_wrongAnswers]. lia.
  - intros Hne.
    destruct (Z.eqb_spec optionIndex (correctAnswer question)); [contradiction|].
    cbn [acc_correctAnswers acc_wrongAnswers]. lia.
Qed.

Lemma answering_moves_counters_witness :
  NoDup (question_ids sample_exam) /\
  In (sample_section, sample_q2) (exam_items sample_exam) /\
  (<["q1" := 0%Z]> ∅ : gmap string Z) !! question_id sample_q2 = None /\
  acc_wrongAnswers (score_exam (handleAnswer "q2" 1 (<["q1" := 0%Z]> ∅)) sample_exam)
  = S (acc_wrongAnswers (score_exam (<["q1" := 0%Z]> ∅) sample_exam)).
Proof.
  assert (Hnd : NoDup (question_ids sample_exam))
    by (apply (bool_decide_unpack _); vm_compute; exact I).
  assert (Hin : In (sample_section, sample_q2) (exam_items sample_exam))
    by (right; left; reflexivity).
  assert (Hnone : (<["q1" := 0%Z]> ∅ : gmap string Z) !! question_id sample_q2
                  = None) by reflexivity.
  split; [exact Hnd|]. split; [exact Hin|]. split; [exact Hnone|].
  destruct (answering_moves_counters sample_exam (<["q1" := 0%Z]> ∅)
              sample_section sample_q2 1 Hnd Hin Hnone) as [Hown _].
  destruct (Hown eq_refl) as [_ Hwrong].
  apply Hwrong. discriminate.
Defined.
(** ** The timer's submission *)

Lemma step_countdown_other (a : Action) (p : Page) :
  a <> Tick -> countdown (step a p) = countdown p.
Proof.
  intros Ha. unfold step.
  destruct (question_at (page_exam p) (cursor p)) as [question|]; destruct a;
    try reflexivity; try contradiction.
  - destruct (at_index (options question) optionIndex); reflexivity.
  - destruct (question_at (page_exam p) (sIndex, qIndex)); reflexivity.
Qed.

Lemma shown_step_timed (a : Action) (tp : TimedPage) :
  shown (step_timed a tp) = step a (shown tp).
Proof.
  unfold step_timed. destruct a; try reflexivity.
  destruct (timer (countdown (shown tp))); reflexivity.
Qed.

Lemma shown_run_timed (acts : list Action) : forall tp : TimedPage,
  shown (run_timed acts tp) = run acts (shown tp).
Proof.
  unfold run_timed, run.
  induction acts as [|a acts IH]; intros tp; [reflexivity|].
  cbn [fold_left]. rewrite IH, shown_step_timed. reflexivity.
Qed.

(** Between two ticks the callback's closure stays what it is. *)
Lemma run_timed_between_ticks (acts : list Action) : forall tp : TimedPage,
  count_ticks acts = 0%nat ->
  captured (run_timed acts tp) = captured tp /\
  timer_scored (run_timed acts tp) = timer_scored tp.
Proof.
  unfold run_timed, count_ticks.
  induction acts as [|a acts IH]; intros tp Hno; [split; reflexivity|].
  cbn [fold_left]. destruct a; cbn [List.filter length] in Hno;
    try discriminate;
    match goal with
    | |- context [step_timed ?a tp] =>
        destruct (IH (step_timed a tp) Hno) as [Hc Hs]; rewrite Hc, Hs
    end; split; reflexivity.
Qed.

(** The timer has scored as many maps as it has called [handleSubmit]. *)
Lemma run_timed_scored_length (acts : list Action) : forall tp : TimedPage,
  length (timer_scored tp) = fired (countdown (shown tp)) ->
  length (timer_scored (run_timed acts tp))
  = fired (countdown (shown (run_timed acts tp))).
Proof.
  unfold run_timed.
  induction acts as [|a acts IH]; intros tp Hinv; [exact Hinv|].
  cbn [fold_left]. apply IH. rewrite shown_step_timed.
  destruct a;
    try (rewrite step_countdown_other by discriminate; exact Hinv).
  unfold step_timed. cbn [step countdown]. unfold tick.
  destruct (timer (countdown (shown tp))); cbn [timer_scored]; [|exact Hinv].
  unfold tick_updater. cbn [snd fired].
  destruct (timeLeft (countdown (shown tp)) <=? 1)%Z; [|exact Hinv].
  rewrite length_app. cbn [length]. lia.
Qed.

(** X5.  The submission of the timer scores the answers of a second ago.
    When the countdown has two seconds left after the actions [b1], the
    next tick renews the callback over the answers recorded so far, and the
    tick after that, which is the one that submits, scores exactly those:
    whatever is selected in between, during the last second, is on the page
    but not in the result. *)
Theorem timer_scores_answers_of_previous_tick
    (exam : Exam) (b1 b2 : list Action) :
  (Z.of_nat (count_ticks b1) + 2 = duration exam * 60)%Z ->
  count_ticks b2 = 0%nat ->
  let final := run_timed (b1 ++ [Tick] ++ b2 ++ [Tick]) (timed_start exam) in
  timer_scored final = [page_answers (run b1 (page_start exam))] /\
  page_answers (shown final)
  = page_answers (run b2 (step Tick (run b1 (page_start exam)))) /\
  fired (countdown (shown final)) = 1%nat.
Proof.
  intros Hleft Hno final.
  set (tp1 := run_timed b1 (timed_start exam)).
  assert (Hshown1 : shown tp1 = run b1 (page_start exam))
    by apply shown_run_timed.
  assert (Hcd1 : timeLeft (countdown (shown tp1)) = 2%Z /\
                 timer (countdown (shown tp1)) = true /\
                 fired (countdown (shown tp1)) = 0%nat).
  { rewrite Hshown1, run_countdown.
    destruct (ticks_spec (count_ticks b1) (countdown (page_start exam)))
      as (Ht & Hr & Hf); [reflexivity | cbn; lia |].
    change (countdown (page_start exam)) with (countdown_start exam) in *.
    cbn [countdown_start timeLeft fired] in Ht, Hf.
    rewrite Hr, Ht, Hf. unfold timer_effect.
    destruct (Z.ltb_spec 0 (duration exam * 60)); [|lia].
    destruct (Z.leb_spec (duration exam * 60) (Z.of_nat (count_ticks b1))); [lia|].
    replace (Z.max 0 (duration exam * 60 - Z.of_nat (count_ticks b1))) with 2%Z
      by lia.
    repeat split. }
  destruct Hcd1 as (Hleft1 & Htimer1 & Hfired1).
  assert (Hscored1 : timer_scored tp1 = []).
  { pose proof (run_timed_scored_length b1 (timed_start exam) eq_refl) as Hlen.
    fold tp1 in Hlen. rewrite Hfired1 in Hlen.
    destruct (timer_scored tp1); [reflexivity | discriminate]. }
  set (tp2 := step_timed Tick tp1).
  assert (Htp2 : tp2 = mkTimedPage (step Tick (shown tp1))
                                  (page_answers (shown tp1)) []).
  { unfold tp2, step_timed. rewrite Htimer1, Hleft1, Hscored1. reflexivity. }
  assert (Hcd2 : countdown (shown tp2) = mkCountdown 1 true 0).
  { rewrite Htp2. cbn [shown step countdown]. unfold tick.
    rewrite Htimer1, Hleft1, Hfired1. reflexivity. }
  set (tp3 := run_timed b2 tp2).
  destruct (run_timed_between_ticks b2 tp2 Hno) as [Hcap3 Hsc3].
  fold tp3 in Hcap3, Hsc3.
  assert (Hcd3 : countdown (shown tp3) = mkCountdown 1 true 0).
  { unfold tp3. rewrite shown_run_timed, run_countdown, Hno. exact Hcd2. }
  assert (Hfinal : final = step_timed Tick tp3).
  { unfold final, run_timed. rewrite !fold_left_app. reflexivity. }
  rewrite Hfinal. unfold step_timed at 1 2 3. rewrite Hcd3.
  cbn [timer timeLeft tick_updater snd Z.leb Z.compare timer_scored shown
       step page_answers countdown].
  rewrite Hsc3, Hcap3, Htp2. cbn [timer_scored captured app].
  rewrite Hshown1. split; [reflexivity|]. split.
  - unfold tp3. rewrite shown_run_timed, Htp2. cbn [shown].
    rewrite Hshown1. reflexivity.
  - unfold tick. rewrite Hcd3. reflexivity.
Qed.

Lemma timer_scores_answers_of_previous_tick_witness :
  (Z.of_nat (count_ticks (repeat Tick 58)) + 2 = duration sample_exam * 60)%Z /\
  count_ticks [Select 0] = 0%nat /\
  timer_scored (run_timed (repeat Tick 58 ++ [Tick] ++ [Select 0] ++ [Tick])
                          (timed_start sample_exam)) = [∅] /\
  page_answers (shown (run_timed (repeat Tick 58 ++ [Tick] ++ [Select 0] ++ [Tick])
                                 (timed_start sample_exam)))
    !! "q1" = Some 0%Z.
Proof.
  assert (Hleft : (Z.of_nat (count_ticks (repeat Tick 58)) + 2
                   = duration sample_exam * 60)%Z) by reflexivity.
  split; [exact Hleft|]. split; [reflexivity|].
  destruct (timer_scores_answers_of_previous_tick sample_exam (repeat Tick 58)
              [Select 0] Hleft eq_refl) as (Hscored & Hpage & _).
  split.
  - rewrite Hscored. reflexivity.
  - rewrite Hpage. vm_compute. reflexivity.
Defined.


(** ** Scorer: questions under names of their own *)

(** X23.  In an exam with distinct question identifiers none of which is a
    name objects inherit, scored against an answer map whose keys [S] are
    identifiers of its questions: a question without an entry leaves all
    three counters as they are; correct count plus wrong count is [|S|];
    the questions without an entry are [totalQuestions - |S|]; and the
    counters are those of a pass over the questions with an entry alone. *)
Theorem own_names_unanswered_contribute_nothing
    (exam : Exam) (answers : gmap string Z) :
  own_names exam ->
  NoDup (question_ids exam) ->
  dom answers ⊆ list_to_set (question_ids exam) ->
  (forall section acc question,
     In (section, question) (exam_items exam) ->
     answers !! question_id question = None ->
     score_question answers section acc question = acc) /\
  (acc_correctAnswers (score_exam answers exam)
   + acc_wrongAnswers (score_exam answers exam) = size (dom answers))%nat /\
  length (List.filter (fun it => negb (answered answers it)) (exam_items exam))
    = (totalQuestionsOf exam - size (dom answers))%nat /\
  score_exam answers exam
    = fold_left (step_item answers)
                (List.filter (answered answers) (exam_items exam)) tally0.
Proof.
  intros Hown Hnd Hsub.
  pose proof (answered_items_size exam answers Hnd Hsub) as Hsize.
  split; [|split; [|split]].
  - intros section acc question Hin Hnone.
    unfold score_question, get_answer. rewrite Hnone.
    pose proof (Hown (section, question) Hin) as Hname. cbn [snd] in Hname.
    rewrite Hname. reflexivity.
  - apply own_names_count_entries; assumption.
  - rewrite totalQuestionsOf_items, <- Hsize.
    pose proof (filter_length (answered answers) (exam_items exam)). lia.
  - rewrite score_exam_items, fold_items_counted_only.
    rewrite (filter_counted_own_names answers (exam_items exam) Hown).
    reflexivity.
Qed.

Lemma own_names_unanswered_contribute_nothing_witness :
  own_names sample_exam /\
  NoDup (question_ids sample_exam) /\
  dom ({["q2" := 1%Z]} : gmap string Z) ⊆ list_to_set (question_ids sample_exam) /\
  (acc_correctAnswers (score_exam {["q2" := 1%Z]} sample_exam)
   + acc_wrongAnswers (score_exam {["q2" := 1%Z]} sample_exam) = 1)%nat /\
  length (List.filter (fun it => negb (answered {["q2" := 1%Z]} it))
                      (exam_items sample_exam)) = 1%nat.
Proof.
  assert (Hown : own_names sample_exam).
  { intros it [<-|[<-|[]]]; reflexivity. }
  assert (Hnd : NoDup (question_ids sample_exam))
    by (apply (bool_decide_unpack _); vm_compute; exact I).
  assert (Hsub : dom ({["q2" := 1%Z]} : gmap string Z)
                 ⊆ list_to_set (question_ids sample_exam)).
  { rewrite dom_singleton_L. intros k Hk. apply elem_of_singleton in Hk.
    subst k. apply elem_of_list_to_set.
    apply (bool_decide_unpack _). vm_compute. exact I. }
  split; [exact Hown|]. split; [exact Hnd|]. split; [exact Hsub|].
  destruct (own_names_unanswered_contribute_nothing sample_exam
              {["q2" := 1%Z]} Hown Hnd Hsub) as (_ & Hcount & Hrest & _).
  rewrite Hcount, Hrest, dom_singleton_L, size_singleton. split; reflexivity.
Defined.
